(** * Patient triage queue: priority scoring, RL adjustment and queue order

    A shallow embedding of [models.py], [utils.py], [rl_scheduler.py] and the
    queue endpoints of [main.py], and the properties of the scheduling
    engine proved over it.

    Conventions of the embedding.
    - A Python [float] is an exact rational ([Q]); a literal such as [0.3]
      is the fraction [3 # 10].  Equalities between scores are therefore
      stated with [==] ([Qeq]).
    - A Python [int] is a [Z].
    - A [datetime] is a number of microseconds ([Z]); a [timedelta] is the
      difference of two of them and [total_seconds()] divides by [10^6].
    - [datetime.now()] is the parameter [now] of every operation: one
      request reads one instant.
    - [str.lower()] acts on the ASCII letters; the other bytes are kept.
    - A raised exception is the result [None].
    - The global NumPy generator is a pair of tapes and a read position. *)

From Stdlib Require Import Ascii String ZArith QArith Qminmax Qround Lia Lqa.
From stdpp Require Import gmap strings list pretty sorting.

Local Open Scope Z_scope.

(* ------------------------------------------------------------------ *)
(** ** Python primitives *)

Module Py.

(** [c.lower()] for one ASCII character. *)
Definition lower_ascii (c : ascii) : ascii :=
  let n := nat_of_ascii c in
  if (65 <=? n)%nat && (n <=? 90)%nat then ascii_of_nat (n + 32) else c.

(** [s.lower()]. *)
Fixpoint lower (s : string) : string :=
  match s with
  | EmptyString => EmptyString
  | String c r => String (lower_ascii c) (lower r)
  end.

(** [int(x)] on a float: truncation towards zero. *)
Definition int_of_float (x : Q) : Z := Z.quot (Qnum x) (Z.pos (Qden x)).

(** [td.total_seconds()] for a difference of instants in microseconds. *)
Definition total_seconds (td : Z) : Q := (inject_Z td / 1000000)%Q.

(** [dt.timestamp()], seconds since the epoch. *)
Definition timestamp_seconds (dt : Z) : Q := (inject_Z dt / 1000000)%Q.

(** [dt.hour]. *)
Definition hour (dt : Z) : Z := (dt / 3600000000) mod 24.

(** [max(xs)] on a non-empty sequence: the first maximal element. *)
Definition max_list (x : Q) (xs : list Q) : Q :=
  fold_left (fun m v => if Qlt_le_dec m v then v else m) xs x.

End Py.

(* ------------------------------------------------------------------ *)
(** ** models.py *)

Record VitalSigns := mkVitalSigns {
  heart_rate : Z;
  respiratory_rate : Z;
  body_temperature : Q;
  oxygen_saturation : Z;
  systolic_blood_pressure : Z;
  diastolic_blood_pressure : Z;
  age : Z;
  gender : Z;
  weight : Q;
  height : Q;
  derived_hrv : Q;
  derived_pulse_pressure : Q;
  derived_bmi : Q;
  derived_map : Q
}.

Record RiskAssessment := mkRiskAssessment {
  risk_level : string;
  vital_signs : VitalSigns;
  confidence_score : Q;
  priority_score : Q;
  timestamp : option Z;
  time_factor : Q
}.

Definition set_priority_score (a : RiskAssessment) (p : Q) : RiskAssessment :=
  mkRiskAssessment (risk_level a) (vital_signs a) (confidence_score a) p
                   (timestamp a) (time_factor a).

Definition set_timestamp (a : RiskAssessment) (t : Z) : RiskAssessment :=
  mkRiskAssessment (risk_level a) (vital_signs a) (confidence_score a)
                   (priority_score a) (Some t) (time_factor a).

Definition set_time_factor (a : RiskAssessment) (f : Q) : RiskAssessment :=
  mkRiskAssessment (risk_level a) (vital_signs a) (confidence_score a)
                   (priority_score a) (timestamp a) f.

(** [risk_weights.get(self.risk_level.lower(), 10.0)] *)
Definition risk_weight (level : string) : Q :=
  if String.eqb (Py.lower level) "high" then 100
  else if String.eqb (Py.lower level) "medium" then 50
  else if String.eqb (Py.lower level) "low" then 10
  else 10.

(** [RiskAssessment._calculate_time_urgency]: the value returned and the
    assessment after the call (the timestamp is filled in when missing). *)
Definition _calculate_time_urgency (now : Z) (a : RiskAssessment)
  : Q * RiskAssessment :=
  match timestamp a with
  | None => (1%Q, set_timestamp a now)
  | Some t =>
      let time_elapsed := (Py.total_seconds (now - t) / 60)%Q in
      if String.eqb (Py.lower (risk_level a)) "high" then
        ((1 + time_elapsed / 10)%Q, a)
      else if String.eqb (Py.lower (risk_level a)) "medium" then
        ((1 + time_elapsed / 30)%Q, a)
      else
        ((1 + time_elapsed / 120)%Q, a)
  end.

(** [RiskAssessment._calculate_critical_vitals_factor] *)
Definition _calculate_critical_vitals_factor (a : RiskAssessment) : Q :=
  let vs := vital_signs a in
  let critical_factor := 0%Q in
  let critical_factor :=
    if (heart_rate vs <? 50) || (120 <? heart_rate vs)
    then (critical_factor + (3 # 10))%Q else critical_factor in
  let critical_factor :=
    if (systolic_blood_pressure vs <? 90) || (180 <? systolic_blood_pressure vs)
    then (critical_factor + (4 # 10))%Q else critical_factor in
  let critical_factor :=
    if (oxygen_saturation vs <? 90)
    then (critical_factor + (5 # 10))%Q else critical_factor in
  let critical_factor :=
    if (if Qlt_le_dec (body_temperature vs) 35 then true else false)
       || (if Qlt_le_dec 39 (body_temperature vs) then true else false)
    then (critical_factor + (3 # 10))%Q else critical_factor in
  let critical_factor :=
    if (respiratory_rate vs <? 12) || (25 <? respiratory_rate vs)
    then (critical_factor + (2 # 10))%Q else critical_factor in
  Qmin critical_factor 1.

(** [min(self.vital_signs.age / 80.0, 1.5)] *)
Definition age_factor_of (a : RiskAssessment) : Q :=
  Qmin (inject_Z (age (vital_signs a)) / 80) (3 # 2).

(** [RiskAssessment.calculate_priority_score]: the score returned and the
    assessment after the call ([priority_score] is overwritten). *)
Definition calculate_priority_score (now : Z) (a : RiskAssessment)
  : Q * RiskAssessment :=
  let base_score := risk_weight (risk_level a) in
  let confidence_factor := confidence_score a in
  let '(time_urgency, a1) := _calculate_time_urgency now a in
  let age_factor := age_factor_of a1 in
  let critical_factor := _calculate_critical_vitals_factor a1 in
  let priority :=
    (base_score * confidence_factor * time_urgency
     * (1 + age_factor) * (1 + critical_factor))%Q in
  (priority, set_priority_score a1 priority).

Record PatientQueue := mkPatientQueue {
  patient_id : string;
  risk_assessment : RiskAssessment;
  queue_position : Z;
  estimated_wait_time : Z;
  rl_adjustment : Q;
  rl_state : option string;
  rl_action : option string
}.

Definition set_risk_assessment (p : PatientQueue) (a : RiskAssessment) :=
  mkPatientQueue (patient_id p) a (queue_position p) (estimated_wait_time p)
                 (rl_adjustment p) (rl_state p) (rl_action p).

Definition set_queue_position (p : PatientQueue) (n : Z) :=
  mkPatientQueue (patient_id p) (risk_assessment p) n (estimated_wait_time p)
                 (rl_adjustment p) (rl_state p) (rl_action p).

Definition set_estimated_wait_time (p : PatientQueue) (w : Z) :=
  mkPatientQueue (patient_id p) (risk_assessment p) (queue_position p) w
                 (rl_adjustment p) (rl_state p) (rl_action p).

Definition set_rl_adjustment (p : PatientQueue) (x : Q) :=
  mkPatientQueue (patient_id p) (risk_assessment p) (queue_position p)
                 (estimated_wait_time p) x (rl_state p) (rl_action p).

Definition set_rl_binding (p : PatientQueue) (s a : string) :=
  mkPatientQueue (patient_id p) (risk_assessment p) (queue_position p)
                 (estimated_wait_time p) (rl_adjustment p) (Some s) (Some a).

(** [PatientQueue.get_final_priority]: the value returned and the entry
    after the call (its assessment's [priority_score] is refreshed). *)
Definition get_final_priority (now : Z) (p : PatientQueue)
  : Q * PatientQueue :=
  let '(base_priority, a1) := calculate_priority_score now (risk_assessment p) in
  let p1 := set_risk_assessment p a1 in
  if String.eqb (Py.lower (risk_level a1)) "low" then
    let rl_boost := rl_adjustment p1 in
    ((base_priority + rl_boost)%Q, p1)
  else (base_priority, p1).

(** [PatientQueue.update_time_factor] *)
Definition update_time_factor (now : Z) (p : PatientQueue) : PatientQueue :=
  let '(u, a1) := _calculate_time_urgency now (risk_assessment p) in
  set_risk_assessment p (set_time_factor a1 u).

(* ------------------------------------------------------------------ *)
(** ** utils.py: the wait-time estimate *)

(** [base_time_per_patient.get(risk_level, 20)] *)
Definition base_time_per_patient (risk_level_lower : string) : Z :=
  if String.eqb risk_level_lower "high" then 15
  else if String.eqb risk_level_lower "medium" then 20
  else if String.eqb risk_level_lower "low" then 25
  else 20.

(** [calculate_estimated_wait_time(patient, position)]; [position] is the
    0-based rank. *)
Definition calculate_estimated_wait_time (patient : PatientQueue) (position : Z)
  : Z :=
  let risk_level := Py.lower (risk_level (risk_assessment patient)) in
  let base_time := base_time_per_patient risk_level in
  let estimated_wait := position * base_time in
  if String.eqb risk_level "high" then Z.max 0 (estimated_wait - 10)
  else estimated_wait.

(* ------------------------------------------------------------------ *)
(** ** rl_scheduler.py: the Q-table and the scheduler *)

(** One row of the Q-table: a dict from action name to value, in
    insertion order. *)
Definition QRow := list (string * Q).

Fixpoint row_get (k : string) (row : QRow) : option Q :=
  match row with
  | [] => None
  | (k', v) :: r => if String.eqb k' k then Some v else row_get k r
  end.

(** [row[k] = v]: the value is replaced in place, or the key is appended. *)
Fixpoint row_set (k : string) (v : Q) (row : QRow) : QRow :=
  match row with
  | [] => [(k, v)]
  | (k', v') :: r =>
      if String.eqb k' k then (k', v) :: r else (k', v') :: row_set k v r
  end.

(** [max(row.values())]; [None] is the [ValueError] on an empty row. *)
Definition row_max_value (row : QRow) : option Q :=
  match row with
  | [] => None
  | (_, v) :: r => Some (Py.max_list v (map snd r))
  end.

(** [max(row, key=row.get)]: the first key whose value is maximal. *)
Definition row_argmax (row : QRow) : option string :=
  match row with
  | [] => None
  | kv :: r =>
      Some (fst (fold_left
                   (fun best cand =>
                      if Qlt_le_dec (snd best) (snd cand) then cand else best)
                   r kv))
  end.

(** The global NumPy generator: what [np.random.random()] and
    [np.random.choice] return at each read, and the number of reads so far. *)
Record Rng := mkRng {
  rand_tape : nat -> Q;
  choice_tape : nat -> nat;
  rng_pos : nat
}.

Definition np_random_random (g : Rng) : Q * Rng :=
  (rand_tape g (rng_pos g),
   mkRng (rand_tape g) (choice_tape g) (S (rng_pos g))).

Definition np_random_choice (g : Rng) (xs : list string) : string * Rng :=
  (nth (choice_tape g (rng_pos g) mod length xs)%nat xs ""%string,
   mkRng (rand_tape g) (choice_tape g) (S (rng_pos g))).

Record PatientSchedulerRL := mkScheduler {
  learning_rate : Q;
  discount_factor : Q;
  epsilon : Q;
  epsilon_decay : Q;
  min_epsilon : Q;
  q_table : gmap string QRow
}.

Definition set_q_table (s : PatientSchedulerRL) (t : gmap string QRow) :=
  mkScheduler (learning_rate s) (discount_factor s) (epsilon s)
              (epsilon_decay s) (min_epsilon s) t.

Definition set_epsilon (s : PatientSchedulerRL) (e : Q) :=
  mkScheduler (learning_rate s) (discount_factor s) e
              (epsilon_decay s) (min_epsilon s) (q_table s).

(** The keys of [self.actions], in insertion order. *)
Definition actions : list string :=
  ["immediate"; "delay_15"; "delay_30"; "delay_60"; "delay_120"]%string.

(** [{a: 0.0 for a in self.actions.keys()}] *)
Definition zero_row : QRow := map (fun a => (a, 0%Q)) actions.

(** [if state not in self.q_table: self.q_table[state] = {...}] *)
Definition ensure_state (s : PatientSchedulerRL) (state : string)
  : PatientSchedulerRL :=
  match q_table s !! state with
  | Some _ => s
  | None => set_q_table s (<[state := zero_row]> (q_table s))
  end.

(** [load_q_table]: the file content when the file exists and parses. *)
Definition load_q_table (file : option (gmap string QRow)) : gmap string QRow :=
  match file with
  | Some t => t
  | None => ∅
  end.

(** [save_q_table]: the new content of the file. *)
Definition save_q_table (s : PatientSchedulerRL) : option (gmap string QRow) :=
  Some (q_table s).

(** [PatientSchedulerRL.__init__] *)
Definition new_scheduler_with (learning_rate discount_factor epsilon epsilon_decay : Q)
    (file : option (gmap string QRow)) : PatientSchedulerRL :=
  mkScheduler learning_rate discount_factor epsilon epsilon_decay (1 # 100)
              (load_q_table file).

(** [PatientSchedulerRL()] with the default arguments. *)
Definition new_scheduler (file : option (gmap string QRow)) : PatientSchedulerRL :=
  new_scheduler_with (1 # 10) (95 # 100) (1 # 10) (995 # 1000) file.

Record QueueInfo := mkQueueInfo {
  total_patients : Z;
  high_risk_count : Z;
  medium_risk_count : Z;
  low_risk_count : Z;
  average_confidence : Q
}.

(** [PatientSchedulerRL.get_state] *)
Definition get_state (now : Z) (patient : PatientQueue) (queue_info : QueueInfo)
  : string :=
  let risk_level := Py.lower (risk_level (risk_assessment patient)) in
  let confidence_bucket :=
    Py.int_of_float (confidence_score (risk_assessment patient) * 10)%Q in
  let queue_length := Z.min (total_patients queue_info) 10 in
  let high_risk_count := Z.min (high_risk_count queue_info) 5 in
  let hour := Py.hour now in
  let time_bucket :=
    if (6 <=? hour) && (hour <? 12) then "morning"
    else if (12 <=? hour) && (hour <? 18) then "afternoon"
    else "evening" in
  risk_level +:+ "_" +:+ pretty confidence_bucket +:+ "_" +:+
  pretty queue_length +:+ "_" +:+ pretty high_risk_count +:+ "_" +:+
  time_bucket.

(** [PatientSchedulerRL.choose_action]; [None] is the [ValueError] of
    [max] on an empty row. *)
Definition choose_action (s : PatientSchedulerRL) (g : Rng) (state : string)
  : option (string * PatientSchedulerRL * Rng) :=
  let s1 := ensure_state s state in
  let '(u, g1) := np_random_random g in
  if Qlt_le_dec u (epsilon s1) then
    let '(a, g2) := np_random_choice g1 actions in
    Some (a, s1, g2)
  else
    match q_table s1 !! state with
    | Some row =>
        match row_argmax row with
        | Some a => Some (a, s1, g1)
        | None => None
        end
    | None => None
    end.

(** The [outcome] dict; a missing key is [None]. *)
Record Outcome := mkOutcome {
  actual_wait_time : option Z;
  satisfaction_score : option Q;
  resource_utilization : option Q;
  outcome_timestamp : option Z
}.

(** [PatientSchedulerRL.get_reward] *)
Definition get_reward (action : string) (patient : PatientQueue)
    (outcome : Outcome) : Q :=
  let base_reward := 0%Q in
  let wait_time_actual := default 0 (actual_wait_time outcome) in
  let patient_satisfaction := default (1 # 2)%Q (satisfaction_score outcome) in
  let utilization := default (1 # 2)%Q (resource_utilization outcome) in
  let base_reward :=
    if 120 <? wait_time_actual then (base_reward - 10)%Q
    else if 60 <? wait_time_actual then (base_reward - 5)%Q
    else if 30 <? wait_time_actual then (base_reward - 2)%Q
    else base_reward in
  let base_reward := (base_reward + patient_satisfaction * 10)%Q in
  let base_reward := (base_reward + utilization * 5)%Q in
  if String.eqb (Py.lower (risk_level (risk_assessment patient))) "low" then
    if (String.eqb action "delay_30" || String.eqb action "delay_60")
       && (if Qlt_le_dec (7 # 10) patient_satisfaction then true else false)
    then (base_reward + 3)%Q
    else if String.eqb action "immediate"
            && (if Qlt_le_dec utilization (3 # 10) then true else false)
    then (base_reward - 2)%Q
    else base_reward
  else base_reward.

(** [PatientSchedulerRL.update_q_value]; [None] is the [KeyError] of an
    action missing from the row of [state], or the [ValueError] of [max]
    on an empty row of [next_state]. *)
Definition update_q_value (s : PatientSchedulerRL)
    (state action : string) (reward : Q) (next_state : string)
  : option PatientSchedulerRL :=
  let s1 := ensure_state s state in
  let s2 := ensure_state s1 next_state in
  row ← q_table s2 !! state;
  current_q ← row_get action row;
  next_row ← q_table s2 !! next_state;
  max_next_q ← row_max_value next_row;
  let new_q :=
    (current_q + learning_rate s2
                 * (reward + discount_factor s2 * max_next_q - current_q))%Q in
  let s3 := set_q_table s2 (<[state := row_set action new_q row]> (q_table s2)) in
  Some (set_epsilon s3 (Qmax (min_epsilon s3) (epsilon s3 * epsilon_decay s3))).

(** [action_effects.get(action, action_effects['delay_30'])] as the pair
    [(delay, priority_boost)]. *)
Definition action_effect (action : string) : Z * Q :=
  if String.eqb action "immediate" then (0, 10%Q)
  else if String.eqb action "delay_15" then (15, 2%Q)
  else if String.eqb action "delay_30" then (30, 0%Q)
  else if String.eqb action "delay_60" then (60, (-3)%Q)
  else if String.eqb action "delay_120" then (120, (-8)%Q)
  else (30, 0%Q).

(** [PatientSchedulerRL.apply_action_to_patient] *)
Definition apply_action_to_patient (action : string) (patient : PatientQueue)
  : PatientQueue :=
  let effect := action_effect action in
  let patient :=
    set_estimated_wait_time patient (estimated_wait_time patient + fst effect) in
  set_rl_adjustment patient (snd effect).

(** The first loop of [schedule_patients_with_rl]: an action is chosen and
    applied for every low-risk entry, in list order. *)
Fixpoint rl_pass (s : PatientSchedulerRL) (g : Rng) (now : Z)
    (queue_info : QueueInfo) (patients : list PatientQueue)
  : option (list PatientQueue * PatientSchedulerRL * Rng) :=
  match patients with
  | [] => Some ([], s, g)
  | patient :: rest =>
      if String.eqb (Py.lower (risk_level (risk_assessment patient))) "low" then
        let state := get_state now patient queue_info in
        '(action, s1, g1) ← choose_action s g state;
        let patient := apply_action_to_patient action patient in
        let patient := set_rl_binding patient state action in
        '(out, s2, g2) ← rl_pass s1 g1 now queue_info rest;
        Some (patient :: out, s2, g2)
      else
        '(out, s2, g2) ← rl_pass s g now queue_info rest;
        Some (patient :: out, s2, g2)
  end.

(** [list.sort(key=..., reverse=True)] once the keys are computed: a stable
    sort in descending key order. *)
Fixpoint insert_desc {A : Type} (x : Q * A) (l : list (Q * A)) : list (Q * A) :=
  match l with
  | [] => [x]
  | y :: r =>
      if Qlt_le_dec (fst x) (fst y) then y :: insert_desc x r else x :: y :: r
  end.

Fixpoint sort_desc {A : Type} (l : list (Q * A)) : list (Q * A) :=
  match l with
  | [] => []
  | x :: r => insert_desc x (sort_desc r)
  end.

(** [scheduled_patients.sort(key=lambda p: p.get_final_priority(),
    reverse=True)]: every key is computed once, in list order, and the
    call refreshes the entry. *)
Definition sort_by_final_priority (now : Z) (ps : list PatientQueue)
  : list PatientQueue :=
  map snd (sort_desc (map (get_final_priority now) ps)).

(** [for i, patient in enumerate(ps): patient.queue_position = i + 1],
    from index [i]. *)
Fixpoint assign_positions (i : Z) (ps : list PatientQueue) : list PatientQueue :=
  match ps with
  | [] => []
  | p :: r => set_queue_position p (i + 1) :: assign_positions (i + 1) r
  end.

(** [PatientSchedulerRL.schedule_patients_with_rl] *)
Definition schedule_patients_with_rl (s : PatientSchedulerRL) (g : Rng)
    (now : Z) (patients : list PatientQueue) (queue_info : QueueInfo)
  : option (list PatientQueue * PatientSchedulerRL * Rng) :=
  '(scheduled_patients, s1, g1) ← rl_pass s g now queue_info patients;
  let scheduled_patients := sort_by_final_priority now scheduled_patients in
  Some (assign_positions 0 scheduled_patients, s1, g1).

(** [PatientSchedulerRL.provide_feedback]: the body is [pass]. *)
Definition provide_feedback (s : PatientSchedulerRL) (patient_id : string)
    (outcome : Outcome) : PatientSchedulerRL := s.

Record HistoryEntry := mkHistoryEntry {
  history_patient_id : string;
  history_outcome : Outcome;
  history_timestamp : Z
}.

Record PriorityManager := mkPriorityManager {
  rl_scheduler : PatientSchedulerRL;
  patient_history : list HistoryEntry
}.

(** [PriorityManager()]: the scheduler is loaded from the Q-table file. *)
Definition new_priority_manager (file : option (gmap string QRow))
  : PriorityManager :=
  mkPriorityManager (new_scheduler file) [].

(** [len([p for p in patients if p.risk_assessment.risk_level.lower() == level])] *)
Definition count_level (level : string) (patients : list PatientQueue) : Z :=
  Z.of_nat (length (filter
    (fun p => String.eqb (Py.lower (risk_level (risk_assessment p))) level = true)
    patients)).

(** [np.mean([...]) if patients else 0.0] *)
Definition mean_confidence (patients : list PatientQueue) : Q :=
  match patients with
  | [] => 0%Q
  | _ =>
      (fold_right Qplus 0 (map (fun p => confidence_score (risk_assessment p)) patients)
       / inject_Z (Z.of_nat (length patients)))%Q
  end.

(** The second loop of [calculate_dynamic_priority]:
    [patient.risk_assessment.calculate_priority_score()]. *)
Definition refresh_score (now : Z) (p : PatientQueue) : PatientQueue :=
  set_risk_assessment p (snd (calculate_priority_score now (risk_assessment p))).

(** [PriorityManager.calculate_dynamic_priority] *)
Definition calculate_dynamic_priority (m : PriorityManager) (g : Rng) (now : Z)
    (patients : list PatientQueue)
  : option (list PatientQueue * PriorityManager * Rng) :=
  let queue_info :=
    mkQueueInfo (Z.of_nat (length patients))
                (count_level "high" patients)
                (count_level "medium" patients)
                (count_level "low" patients)
                (mean_confidence patients) in
  let patients := map (refresh_score now) patients in
  '(scheduled_patients, s1, g1) ←
    schedule_patients_with_rl (rl_scheduler m) g now patients queue_info;
  Some (scheduled_patients, mkPriorityManager s1 (patient_history m), g1).

(** The method [PriorityManager.get_next_patient]; the inner [None] is
    Python's [None], the outer one an exception. *)
Definition pm_get_next_patient (m : PriorityManager) (g : Rng) (now : Z)
    (patients : list PatientQueue)
  : option (option PatientQueue * PriorityManager * Rng) :=
  match patients with
  | [] => Some (None, m, g)
  | _ =>
      '(updated_patients, m1, g1) ← calculate_dynamic_priority m g now patients;
      Some (head updated_patients, m1, g1)
  end.

(** [PriorityManager.update_with_outcome]: the manager after the call and
    the content of the Q-table file after the call. *)
Definition update_with_outcome (m : PriorityManager)
    (file : option (gmap string QRow)) (now : Z)
    (patient_id : string) (outcome : Outcome)
  : PriorityManager * option (gmap string QRow) :=
  let s1 := provide_feedback (rl_scheduler m) patient_id outcome in
  let history :=
    patient_history m ++ [mkHistoryEntry patient_id outcome now] in
  let m1 := mkPriorityManager s1 history in
  if (Z.of_nat (length history) mod 10 =? 0)
  then (m1, save_q_table s1)
  else (m1, file).

(* ------------------------------------------------------------------ *)
(** ** utils.py: the queue snapshot *)

(** [f"patient_{i+1}_{int(assessment.timestamp.timestamp())}"] *)
Definition make_patient_id (i : Z) (t : Z) : string :=
  "patient_" +:+ pretty (i + 1) +:+ "_" +:+
  pretty (Py.int_of_float (Py.timestamp_seconds t)).

(** The first loop of [manage_patient_queue], from index [i]; [None] is
    the [AttributeError] raised on an assessment without timestamp. *)
Fixpoint make_queue_items (i : Z) (patient_assessments : list RiskAssessment)
  : option (list PatientQueue) :=
  match patient_assessments with
  | [] => Some []
  | assessment :: rest =>
      t ← timestamp assessment;
      let queue_item :=
        mkPatientQueue (make_patient_id i t) assessment 0 0 0%Q None None in
      items ← make_queue_items (i + 1) rest;
      Some (queue_item :: items)
  end.

(** The last loop of [manage_patient_queue], from index [i]. *)
Fixpoint finalize_queue (i : Z) (sorted_queue : list PatientQueue)
  : list PatientQueue :=
  match sorted_queue with
  | [] => []
  | patient :: rest =>
      let patient := set_queue_position patient (i + 1) in
      let patient :=
        set_estimated_wait_time patient (calculate_estimated_wait_time patient i) in
      patient :: finalize_queue (i + 1) rest
  end.

(** [manage_patient_queue(patient_assessments)]: a fresh [PriorityManager]
    is built on every call and dropped at the end. *)
Definition manage_patient_queue (file : option (gmap string QRow)) (g : Rng)
    (now : Z) (patient_assessments : list RiskAssessment)
  : option (list PatientQueue * Rng) :=
  let priority_manager := new_priority_manager file in
  patient_queue ← make_queue_items 0 patient_assessments;
  '(sorted_queue, _, g1) ←
    calculate_dynamic_priority priority_manager g now patient_queue;
  Some (finalize_queue 0 sorted_queue, g1).

(* ------------------------------------------------------------------ *)
(** ** main.py: the queue endpoints *)

(** The state that outlives a request: the global [patient_assessments],
    the Q-table file and the global random generator. *)
Record World := mkWorld {
  patient_assessments : list RiskAssessment;
  q_table_file : option (gmap string QRow);
  np_random : Rng
}.

(** What an endpoint hands back to the framework. *)
Inductive Response (A : Type) : Type :=
| Ok (body : A)
| HTTPException (status_code : Z) (detail : string).
Arguments Ok {A} body.
Arguments HTTPException {A} status_code detail.

Record PatientQueueResponse := mkPatientQueueResponse {
  resp_patient_id : string;
  resp_risk_level : string;
  resp_confidence_score : Q;
  resp_priority_score : Q;
  resp_queue_position : Z;
  resp_estimated_wait_time : Z;
  resp_timestamp : option Z
}.

Record RiskPredictionResponse := mkRiskPredictionResponse {
  pred_risk_level : string;
  pred_confidence_score : Q;
  pred_priority_score : Q;
  pred_estimated_wait_time : Z;
  pred_timestamp : option Z;
  pred_details : VitalSigns
}.

(** The assessment objects are shared between [patient_assessments] and the
    queue entries built from them: after a snapshot every stored assessment
    carries the score computed at [now]. *)
Definition refresh_assessment (now : Z) (a : RiskAssessment) : RiskAssessment :=
  snd (calculate_priority_score now a).

(** [PatientQueueResponse(..., priority_score=patient.get_final_priority(), ...)] *)
Definition queue_response (now : Z) (patient : PatientQueue)
  : PatientQueueResponse :=
  let '(final, patient) := get_final_priority now patient in
  mkPatientQueueResponse
    (patient_id patient)
    (risk_level (risk_assessment patient))
    (confidence_score (risk_assessment patient))
    final
    (queue_position patient)
    (estimated_wait_time patient)
    (timestamp (risk_assessment patient)).

(** [create_risk_assessment_with_priority], given the label and the
    confidence returned by the classifier. *)
Definition create_risk_assessment_with_priority (now : Z)
    (vital_signs : VitalSigns) (risk_level : string) (confidence_score : Q)
  : RiskAssessment :=
  refresh_assessment now
    (mkRiskAssessment risk_level vital_signs confidence_score 0 (Some now) 1).

(** The search loop of [predict_risk_with_priority]: the wait time of the
    first entry created within one second of [t]. *)
Fixpoint find_wait_by_timestamp (t : Z) (current_queue : list PatientQueue) : Z :=
  match current_queue with
  | [] => 0
  | patient :: rest =>
      match timestamp (risk_assessment patient) with
      | Some tp =>
          if Z.abs (tp - t) <? 1000000 then estimated_wait_time patient
          else find_wait_by_timestamp t rest
      | None => find_wait_by_timestamp t rest
      end
  end.

(** [POST /predict/] after classification. *)
Definition predict_risk_with_priority (w : World) (now : Z)
    (vitals : VitalSigns) (risk_level : string) (confidence_score : Q)
  : option (RiskPredictionResponse * World) :=
  let risk_assessment :=
    create_risk_assessment_with_priority now vitals risk_level confidence_score in
  let assessments := patient_assessments w ++ [risk_assessment] in
  '(current_queue, g1) ←
    manage_patient_queue (q_table_file w) (np_random w) now assessments;
  let estimated_wait_time := find_wait_by_timestamp now current_queue in
  Some (mkRiskPredictionResponse
          risk_level confidence_score (priority_score risk_assessment)
          estimated_wait_time (Some now) vitals,
        mkWorld (map (refresh_assessment now) assessments) (q_table_file w) g1).

(** [GET /queue/] *)
Definition get_patient_queue (w : World) (now : Z)
  : option (list PatientQueueResponse * World) :=
  match patient_assessments w with
  | [] => Some ([], w)
  | _ =>
      '(current_queue, g1) ←
        manage_patient_queue (q_table_file w) (np_random w) now
                             (patient_assessments w);
      Some (map (queue_response now) current_queue,
            mkWorld (map (refresh_assessment now) (patient_assessments w))
                    (q_table_file w) g1)
  end.

(** [DELETE /queue/clear/]: the number of assessments dropped. *)
Definition clear_queue (w : World) : Z * World :=
  let patient_count := Z.of_nat (length (patient_assessments w)) in
  (patient_count, mkWorld [] (q_table_file w) (np_random w)).

(** [POST /feedback/], the endpoint [provide_feedback] of [main.py]. *)
Definition feedback_endpoint (w : World) (now : Z) (patient_id : string)
    (actual_wait_time : Z) (satisfaction_score resource_utilization : Q)
  : Outcome * World :=
  let outcome :=
    mkOutcome (Some actual_wait_time) (Some satisfaction_score)
              (Some resource_utilization) (Some now) in
  let priority_manager := new_priority_manager (q_table_file w) in
  let '(_, file) :=
    update_with_outcome priority_manager (q_table_file w) now patient_id outcome in
  (outcome, mkWorld (patient_assessments w) file (np_random w)).

(** [GET /queue/next/], the endpoint [get_next_patient] of [main.py]. *)
Definition get_next_patient (w : World) (now : Z)
  : option (Response PatientQueueResponse * World) :=
  match patient_assessments w with
  | [] => Some (HTTPException 404 "No patients in queue", w)
  | _ =>
      '(current_queue, g1) ←
        manage_patient_queue (q_table_file w) (np_random w) now
                             (patient_assessments w);
      let priority_manager := new_priority_manager (q_table_file w) in
      '(next_patient, _, g2) ←
        pm_get_next_patient priority_manager g1 now current_queue;
      let assessments := map (refresh_assessment now) (patient_assessments w) in
      match next_patient with
      | None =>
          Some (HTTPException 404 "No patients available",
                mkWorld assessments (q_table_file w) g2)
      | Some next_patient =>
          let remaining :=
            filter (fun assessment =>
                      timestamp assessment
                      ≠ timestamp (risk_assessment next_patient))
                   assessments in
          Some (Ok (queue_response now next_patient),
                mkWorld remaining (q_table_file w) g2)
      end
  end.

(** The body of [POST /queue/update-priorities/]: the message alone on an
    empty queue, the message and the three counts otherwise. *)
Inductive UpdateResponse : Type :=
| NoPatients (message : string)
| Updated (message : string)
          (high_priority_count medium_priority_count low_priority_count : Z).

(** [POST /queue/update-priorities/], the endpoint
    [update_queue_priorities]: every stored assessment is scored, then a
    snapshot is taken of the same objects. *)
Definition update_queue_priorities (w : World) (now : Z)
  : option (UpdateResponse * World) :=
  match patient_assessments w with
  | [] => Some (NoPatients "No patients in queue", w)
  | _ =>
      let assessments := map (refresh_assessment now) (patient_assessments w) in
      '(updated_queue, g1) ←
        manage_patient_queue (q_table_file w) (np_random w) now assessments;
      Some (Updated
              ("Updated priorities for "
               +:+ pretty (Z.of_nat (length updated_queue)) +:+ " patients")
              (count_level "high" updated_queue)
              (count_level "medium" updated_queue)
              (count_level "low" updated_queue),
            mkWorld (map (refresh_assessment now) assessments)
                    (q_table_file w) g1)
  end.

(** The routes of the application, with the arguments of each request;
    for [POST /predict/] the label and the confidence are those the
    classifier returns for the vitals. *)
Inductive Request : Type :=
| ReadRoot
| Predict (vitals : VitalSigns) (risk_level : string) (confidence_score : Q)
| GetQueue
| UpdatePriorities
| ClearQueue
| Feedback (patient_id : string) (actual_wait_time : Z)
           (satisfaction_score resource_utilization : Q)
| NextPatient.

(** The state after one request served at the instant [now]; [None] is an
    exception that no handler catches.  [GET /] returns its greeting and
    touches nothing. *)
Definition handle (w : World) (now : Z) (request : Request) : option World :=
  match request with
  | ReadRoot => Some w
  | Predict vitals risk_level confidence_score =>
      snd <$> predict_risk_with_priority w now vitals risk_level confidence_score
  | GetQueue => snd <$> get_patient_queue w now
  | UpdatePriorities => snd <$> update_queue_priorities w now
  | ClearQueue => Some (snd (clear_queue w))
  | Feedback patient_id actual_wait_time satisfaction_score resource_utilization =>
      Some (snd (feedback_endpoint w now patient_id actual_wait_time
                   satisfaction_score resource_utilization))
  | NextPatient => snd <$> get_next_patient w now
  end.

(** Requests served one after the other, each at its own instant. *)
Fixpoint serve (w : World) (requests : list (Z * Request)) : option World :=
  match requests with
  | [] => Some w
  | (now, request) :: rest => w1 ← handle w now request; serve w1 rest
  end.

(* ------------------------------------------------------------------ *)
(** ** The scoring rule as the specification words it *)

Module Spec.

Inductive RiskLevel := High | Medium | Low.

(** [base = {High:100, Medium:50, Low:10}[risk_level]] *)
Definition base (r : RiskLevel) : Q :=
  match r with High => 100 | Medium => 50 | Low => 10 end.

(** [divisor = 10] for High, [30] for Medium, [120] for Low. *)
Definition divisor (r : RiskLevel) : Q :=
  match r with High => 10 | Medium => 30 | Low => 120 end.

(** [time_urgency = 1 + elapsed_minutes / divisor] *)
Definition time_urgency (r : RiskLevel) (elapsed_minutes : Q) : Q :=
  (1 + elapsed_minutes / divisor r)%Q.

(** [age_factor = min(age / 80, 1.5)] *)
Definition age_factor (age : Z) : Q := Qmin (inject_Z age / 80) (3 # 2).

(** The five indicators. *)
Definition heart_rate_critical (vs : VitalSigns) : bool :=
  (heart_rate vs <? 50) || (heart_rate vs >? 120).
Definition blood_pressure_critical (vs : VitalSigns) : bool :=
  (systolic_blood_pressure vs <? 90) || (systolic_blood_pressure vs >? 180).
Definition oxygen_critical (vs : VitalSigns) : bool :=
  oxygen_saturation vs <? 90.
Definition temperature_critical (vs : VitalSigns) : bool :=
  negb (Qle_bool 35 (body_temperature vs))
  || negb (Qle_bool (body_temperature vs) 39).
Definition respiratory_critical (vs : VitalSigns) : bool :=
  (respiratory_rate vs <? 12) || (respiratory_rate vs >? 25).

Definition penalty (triggered : bool) (amount : Q) : Q :=
  if triggered then amount else 0%Q.

(** The sum of the penalties, each added once, before the cap. *)
Definition raw_critical_sum (vs : VitalSigns) : Q :=
  (penalty (heart_rate_critical vs) (3 # 10)
   + penalty (blood_pressure_critical vs) (4 # 10)
   + penalty (oxygen_critical vs) (5 # 10)
   + penalty (temperature_critical vs) (3 # 10)
   + penalty (respiratory_critical vs) (2 # 10))%Q.

(** [critical_factor]: the sum capped at [1.0]. *)
Definition critical_factor (vs : VitalSigns) : Q := Qmin (raw_critical_sum vs) 1.

(** [priority = base × confidence × time_urgency × (1 + age_factor)
    × (1 + critical_factor)] *)
Definition score (r : RiskLevel) (confidence elapsed_minutes : Q)
    (vs : VitalSigns) : Q :=
  (base r * confidence * time_urgency r elapsed_minutes
   * (1 + age_factor (age vs)) * (1 + critical_factor vs))%Q.

(** [per_class_minutes = {High:15, Medium:20, Low:25}] *)
Definition per_class_minutes (r : RiskLevel) : Z :=
  match r with High => 15 | Medium => 20 | Low => 25 end.

(** [estimated_wait = position × per_class_minutes]; for High risk a flat
    10-minute offset is subtracted, floored at 0. *)
Definition estimated_wait (r : RiskLevel) (position : Z) : Z :=
  let wait := position * per_class_minutes r in
  match r with
  | High => Z.max 0 (wait - 10)
  | _ => wait
  end.

End Spec.

(** How the code reads a risk label: case-insensitively, and [None] for a
    label that is none of the three. *)
Definition level_of (label : string) : option Spec.RiskLevel :=
  if String.eqb (Py.lower label) "high" then Some Spec.High
  else if String.eqb (Py.lower label) "medium" then Some Spec.Medium
  else if String.eqb (Py.lower label) "low" then Some Spec.Low
  else None.

(** Minutes between the creation of an assessment and [now]; an assessment
    without timestamp is stamped with [now] by the first scoring call. *)
Definition elapsed_minutes (now : Z) (a : RiskAssessment) : Q :=
  match timestamp a with
  | Some t => (Py.total_seconds (now - t) / 60)%Q
  | None => 0%Q
  end.

(** The score of an assessment at [now], and the key used by the sort. *)
Definition score_at (now : Z) (a : RiskAssessment) : Q :=
  fst (calculate_priority_score now a).

Definition final_priority (now : Z) (p : PatientQueue) : Q :=
  fst (get_final_priority now p).

(** The instant an entry was created. *)
Definition created_at (p : PatientQueue) : option Z :=
  timestamp (risk_assessment p).

(** All five indicators of the specification are triggered. *)
Definition all_five_critical (vs : VitalSigns) : bool :=
  Spec.heart_rate_critical vs && Spec.blood_pressure_critical vs
  && Spec.oxygen_critical vs && Spec.temperature_critical vs
  && Spec.respiratory_critical vs.

(** [now] is not earlier than the creation of the assessment. *)
Definition not_before_creation (now : Z) (a : RiskAssessment) : Prop :=
  match timestamp a with
  | Some t => t ≤ now
  | None => True
  end.

(** Concrete vitals: unremarkable ones at a given age, and ones that trigger
    every critical indicator. *)
Definition calm_vitals (age : Z) : VitalSigns :=
  mkVitalSigns 75 16 37%Q 99 115 75 age 0 60%Q (165 # 100)%Q 55%Q 40%Q 22%Q 88%Q.

Definition alarming_vitals : VitalSigns :=
  mkVitalSigns 125 28 40%Q 88 85 45 65 0 55%Q (160 # 100)%Q 15%Q 40%Q 21%Q 58%Q.

(** An assessment as [create_risk_assessment_with_priority] builds it,
    before its first scoring. *)
Definition fresh_assessment (label : string) (vs : VitalSigns) (confidence : Q)
    (created : Z) : RiskAssessment :=
  mkRiskAssessment label vs confidence 0%Q (Some created) 1%Q.

(** A queue entry as [manage_patient_queue] builds it. *)
Definition fresh_entry (a : RiskAssessment) : PatientQueue :=
  mkPatientQueue "patient_1_0" a 0 0 0%Q None None.

(** An adult whose recorded age is negative: the type of [age] is [int]
    and nothing checks its range. *)
Definition negative_age_high : RiskAssessment :=
  fresh_assessment "High" (calm_vitals (-160)) 1%Q 0.

(** The order a stable descending sort produces: a larger key first, and
    for equal keys the order [R0] the elements had before the sort. *)
Definition sorted_before {A : Type} (R0 : relation A) : relation (Q * A) :=
  λ x y, (fst y < fst x)%Q ∨ ((fst x == fst y)%Q ∧ R0 (snd x) (snd y)).

(** The fields of an assessment the score is computed from. *)
Definition scoring_inputs (a : RiskAssessment)
  : string * Q * VitalSigns * option Z :=
  (risk_level a, confidence_score a, vital_signs a, timestamp a).

(** The assessment carries a creation instant. *)
Definition stamped (a : RiskAssessment) : Prop := timestamp a ≠ None.

(** [a] was created no later than [b]. *)
Definition admitted_before (a b : RiskAssessment) : Prop :=
  ∃ ta tb, timestamp a = Some ta ∧ timestamp b = Some tb ∧ ta ≤ tb.

(** The stored assessments are stamped and in admission order. *)
Definition admission_ordered (l : list RiskAssessment) : Prop :=
  Forall stamped l ∧ StronglySorted admitted_before l.

(** No row of the Q-table is empty. *)
Definition rows_nonempty (t : gmap string QRow) : Prop :=
  ∀ k row, t !! k = Some row → row ≠ [].

(** What the first loop of [schedule_patients_with_rl] does to one entry:
    a low-risk entry receives the effect of some action and the binding,
    any other entry is left as it is. *)
Definition rl_step (now : Z) (queue_info : QueueInfo) (p p' : PatientQueue)
  : Prop :=
  if String.eqb (Py.lower (risk_level (risk_assessment p))) "low" then
    ∃ action,
      p' = set_rl_binding (apply_action_to_patient action p)
                          (get_state now p queue_info) action
  else p' = p.

(** The entry [e] differs from [p] in its position and wait time at most. *)
Definition same_ranking (p e : PatientQueue) : Prop :=
  risk_assessment e = risk_assessment p
  ∧ rl_adjustment e = rl_adjustment p
  ∧ patient_id e = patient_id p.

(** The wait time of an entry is the estimate for its 0-based rank. *)
Definition wait_matches_rank (e : PatientQueue) : Prop :=
  estimated_wait_time e
  = calculate_estimated_wait_time e (queue_position e - 1).

(** The pair [(key, entry)] the sort works on, built from the stored
    assessment [a]: the entry holds the refreshed assessment, an adjustment
    within the range of the action effects, and the key is its final
    priority. *)
Definition decorated_from (now : Z) (a : RiskAssessment)
    (x : Q * PatientQueue) : Prop :=
  stamped a
  ∧ risk_assessment (snd x) = refresh_assessment now a
  ∧ fst x = final_priority now (snd x)
  ∧ (-8 <= rl_adjustment (snd x) <= 10)%Q.

(** A generator that never explores: every draw is 0.5, above epsilon. *)
Definition quiet_rng : Rng := mkRng (λ _, (1 # 2)%Q) (λ _, 0%nat) 0.

(** The order of a snapshot by an order [R0] of the stored assessments. *)
Definition ranks_by (R0 : relation RiskAssessment) (now : Z)
    (x y : PatientQueue) : Prop :=
  (final_priority now y < final_priority now x)%Q
  ∨ ((final_priority now x == final_priority now y)%Q
     ∧ R0 (risk_assessment x) (risk_assessment y)).


(** The adjustment that enters the final priority: the RL adjustment for a
    Low entry, nothing for any other. *)
Definition low_adjustment (p : PatientQueue) : Q :=
  match level_of (risk_level (risk_assessment p)) with
  | Some Spec.Low => rl_adjustment p
  | _ => 0%Q
  end.

(** Three patients admitted one second apart, and two admitted in the same
    microsecond. *)
Definition three_patients : list RiskAssessment :=
  [ fresh_assessment "Low" (calm_vitals 25) (7 # 10) 0;
    fresh_assessment "Medium" (calm_vitals 75) (8 # 10) 1000000;
    fresh_assessment "High" (calm_vitals 65) (9 # 10) 2000000 ].


(** [confidence_score: float = 0.0], the default of [RiskAssessment]. *)
Definition default_confidence : Q := 0%Q.

(** A High and a Low assessment created in the same microsecond with the
    default confidence and the same vitals. *)
Definition high_and_low_default : list RiskAssessment :=
  [ fresh_assessment "High" (calm_vitals 40) default_confidence 0;
    fresh_assessment "Low" (calm_vitals 40) default_confidence 0 ].

(** The same pair with the confidence the classifier wrapper falls back
    to. *)
Definition high_and_low_confident : list RiskAssessment :=
  [ fresh_assessment "Low" (calm_vitals 40) (8 # 10) 0;
    fresh_assessment "High" (calm_vitals 40) (8 # 10) 0 ].

(** A run of feedback calls on one manager: each record is the instant,
    the patient and the outcome of a call to [update_with_outcome]. *)
Fixpoint record_all (m : PriorityManager) (file : option (gmap string QRow))
    (records : list (Z * string * Outcome))
  : PriorityManager * option (gmap string QRow) :=
  match records with
  | [] => (m, file)
  | (now, patient_id, outcome) :: rest =>
      let '(m1, file1) := update_with_outcome m file now patient_id outcome in
      record_all m1 file1 rest
  end.

(** A satisfied patient seen after ten minutes. *)
Definition good_outcome : Outcome :=
  mkOutcome (Some 10) (Some 1%Q) (Some 1%Q) (Some 0).

(** One Low patient in the queue. *)
Definition one_low_patient : list RiskAssessment :=
  [ fresh_assessment "Low" (calm_vitals 25) (7 # 10) 0 ].

(** [Q(state, action)], an unknown state or action reading as [0.0]. *)
Definition q_value (s : PatientSchedulerRL) (state action : string) : Q :=
  default 0%Q (q_table s !! state ≫= row_get action).

(** [n] identical updates [(state, action, reward, state)]. *)
Fixpoint repeat_update (n : nat) (s : PatientSchedulerRL)
    (state action : string) (reward : Q) : option PatientSchedulerRL :=
  match n with
  | O => Some s
  | S n =>
      s1 ← update_q_value s state action reward state;
      repeat_update n s1 state action reward
  end.

(** [x] to the power [n]. *)
Fixpoint geometric (x : Q) (n : nat) : Q :=
  match n with
  | O => 1%Q
  | S n => (x * geometric x n)%Q
  end.


(** [reward / (1 − γ)], the fixed point of the update with
    [next_state = state], and [1 − α·(1 − γ)], the factor by which one
    update multiplies the distance to it. *)
Definition fixed_point (s : PatientSchedulerRL) (reward : Q) : Q :=
  (reward / (1 - discount_factor s))%Q.


(** A scheduler loaded from a file in which another action of the state
    already has a large value. *)
Definition scheduler_with_dominant_action : PatientSchedulerRL :=
  new_scheduler
    (Some {[ "s"%string := [("immediate"%string, 0%Q);
                            ("delay_15"%string, 1000%Q)] ]}).

(** The same assessment under another risk label. *)
Definition relabel (a : RiskAssessment) (label : string) : RiskAssessment :=
  mkRiskAssessment label (vital_signs a) (confidence_score a)
                   (priority_score a) (timestamp a) (time_factor a).

(** At least one of the five indicators is triggered. *)
Definition any_critical (vs : VitalSigns) : bool :=
  Spec.heart_rate_critical vs || Spec.blood_pressure_critical vs
  || Spec.oxygen_critical vs || Spec.temperature_critical vs
  || Spec.respiratory_critical vs.

(** Every row of the table has exactly the five actions as keys, in the
    order of [self.actions]: the shape of the rows the scheduler creates. *)
Definition table_complete (t : gmap string QRow) : Prop :=
  ∀ k row, t !! k = Some row → row.*1 = actions.

(** [max(self.q_table[state].values())], an unknown state reading as the
    row of zeros the update would create. *)
Definition max_q_value (s : PatientSchedulerRL) (state : string) : Q :=
  default 0%Q (q_table s !! state ≫= row_max_value).

(** The number of stored assessments whose lowercase label is [level]. *)
Definition labelled (level : string) (l : list RiskAssessment) : Z :=
  Z.of_nat (length (filter
    (λ a, String.eqb (Py.lower (risk_level a)) level = true) l)).

(** What the scheduler leaves on an entry when the queue is described by
    [queue_info]: a Low entry carries an action, the boost of that action
    and the state it was chosen in; any other entry carries nothing. *)
Definition rl_bound_in (now : Z) (queue_info : QueueInfo) (e : PatientQueue)
  : Prop :=
  if String.eqb (Py.lower (risk_level (risk_assessment e))) "low" then
    ∃ action,
      rl_action e = Some action
      ∧ rl_adjustment e = snd (action_effect action)
      ∧ rl_state e = Some (get_state now e queue_info)
  else rl_adjustment e = 0%Q ∧ rl_state e = None ∧ rl_action e = None.

(** The same for an entry of the queue [q]: the state is the one of a queue
    of the length of [q] with the High entries of [q]. *)
Definition rl_bound (now : Z) (q : list PatientQueue) (e : PatientQueue)
  : Prop :=
  ∃ queue_info,
    total_patients queue_info = Z.of_nat (length q)
    ∧ high_risk_count queue_info = count_level "high" q
    ∧ rl_bound_in now queue_info e.

(** The least value the scheduler can add to the score of an assessment:
    -8 (the boost of [delay_120]) for Low, nothing for any other label. *)
Definition least_adjustment (a : RiskAssessment) : Q :=
  if String.eqb (Py.lower (risk_level a)) "low" then (-8)%Q else 0%Q.

(** No character of the string is the separator of the patient ids. *)
Fixpoint no_underscore (s : string) : Prop :=
  match s with
  | EmptyString => True
  | String c r => c ≠ "_"%char ∧ no_underscore r
  end.

(** Every stored assessment was created at [t] or before. *)
Definition created_by (t : Z) (l : list RiskAssessment) : Prop :=
  Forall (λ a, ∃ ta, timestamp a = Some ta ∧ ta ≤ t) l.

(** The clock of the requests starts at [t] or later and never goes back. *)
Fixpoint clock_from (t : Z) (requests : list (Z * Request)) : Prop :=
  match requests with
  | [] => True
  | (now, _) :: rest => t ≤ now ∧ clock_from now rest
  end.

(* ================================================================== *)
(** * Properties *)

(* ------------------------------------------------------------------ *)
(** ** Risk labels *)

Lemma level_of_cases label :
  match level_of label with
  | Some Spec.High => String.eqb (Py.lower label) "high" = true
  | Some Spec.Medium =>
      String.eqb (Py.lower label) "high" = false
      ∧ String.eqb (Py.lower label) "medium" = true
  | Some Spec.Low =>
      String.eqb (Py.lower label) "high" = false
      ∧ String.eqb (Py.lower label) "medium" = false
      ∧ String.eqb (Py.lower label) "low" = true
  | None =>
      String.eqb (Py.lower label) "high" = false
      ∧ String.eqb (Py.lower label) "medium" = false
      ∧ String.eqb (Py.lower label) "low" = false
  end.
Proof.
  unfold level_of.
  destruct (String.eqb (Py.lower label) "high"); [done|].
  destruct (String.eqb (Py.lower label) "medium"); [done|].
  destruct (String.eqb (Py.lower label) "low"); done.
Qed.

(** Rewrites every test of the code on a label whose level is known. *)
Ltac level_tests label :=
  let H := fresh "Hlevel" in
  pose proof (level_of_cases label) as H;
  match goal with
  | E : level_of label = _ |- _ => rewrite E in H
  end;
  cbv beta iota in H;
  repeat match type of H with
         | _ ∧ _ => let H1 := fresh "Htest" in destruct H as [H1 H]
         end.

Lemma risk_weight_level label r :
  level_of label = Some r → risk_weight label = Spec.base r.
Proof.
  intros E. unfold risk_weight.
  destruct r; level_tests label; repeat match goal with
    | H : String.eqb _ _ = _ |- _ => rewrite H; clear H end; done.
Qed.

Lemma risk_weight_unknown label :
  level_of label = None → risk_weight label = 10%Q.
Proof.
  intros E. level_tests label. unfold risk_weight.
  by rewrite Htest, Htest0, Hlevel.
Qed.

Lemma risk_weight_nonneg label : (0 <= risk_weight label)%Q.
Proof. unfold risk_weight. repeat case_match; lra. Qed.

(* ------------------------------------------------------------------ *)
(** ** The factors of the score *)

Lemma time_urgency_value now a :
  fst (_calculate_time_urgency now a)
  = match timestamp a with
    | None => 1%Q
    | Some _ =>
        match level_of (risk_level a) with
        | Some Spec.High => (1 + elapsed_minutes now a / 10)%Q
        | Some Spec.Medium => (1 + elapsed_minutes now a / 30)%Q
        | _ => (1 + elapsed_minutes now a / 120)%Q
        end
    end.
Proof.
  unfold _calculate_time_urgency, elapsed_minutes, level_of.
  destruct (timestamp a); [|done].
  repeat case_match; simplify_eq; done.
Qed.

Lemma time_urgency_assessment now a :
  snd (_calculate_time_urgency now a)
  = match timestamp a with None => set_timestamp a now | Some _ => a end.
Proof.
  unfold _calculate_time_urgency. destruct (timestamp a); [|done].
  repeat case_match; done.
Qed.

(** The score is the product the code writes, over the fields of [a]. *)
Lemma score_at_unfold now a :
  score_at now a
  = (risk_weight (risk_level a) * confidence_score a
     * fst (_calculate_time_urgency now a)
     * (1 + age_factor_of a) * (1 + _calculate_critical_vitals_factor a))%Q.
Proof.
  unfold score_at, calculate_priority_score.
  pose proof (time_urgency_assessment now a) as Ha.
  destruct (_calculate_time_urgency now a) as [u a1]. simpl in *. subst a1.
  destruct (timestamp a); done.
Qed.

Lemma temperature_low_test (t : Q) :
  (if Qlt_le_dec t 35 then true else false) = negb (Qle_bool 35 t).
Proof.
  destruct (Qlt_le_dec t 35) as [H|H].
  - destruct (Qle_bool 35 t) eqn:E; [|done].
    apply Qle_bool_iff in E. lra.
  - apply Qle_bool_iff in H. by rewrite H.
Qed.

Lemma temperature_high_test (t : Q) :
  (if Qlt_le_dec 39 t then true else false) = negb (Qle_bool t 39).
Proof.
  destruct (Qlt_le_dec 39 t) as [H|H].
  - destruct (Qle_bool t 39) eqn:E; [|done].
    apply Qle_bool_iff in E. lra.
  - apply Qle_bool_iff in H. by rewrite H.
Qed.

(** The accumulation of the code is the capped sum of the five penalties. *)
Lemma critical_factor_refines a :
  (_calculate_critical_vitals_factor a == Spec.critical_factor (vital_signs a))%Q.
Proof.
  unfold _calculate_critical_vitals_factor, Spec.critical_factor,
    Spec.raw_critical_sum, Spec.heart_rate_critical,
    Spec.blood_pressure_critical, Spec.oxygen_critical,
    Spec.temperature_critical, Spec.respiratory_critical.
  rewrite temperature_low_test, temperature_high_test, !Z.gtb_ltb.
  destruct (_ || _), (_ || _), (_ <? _), (_ || _), (_ || _); reflexivity.
Qed.

Lemma critical_factor_bounds a :
  (0 <= _calculate_critical_vitals_factor a <= 1)%Q.
Proof.
  rewrite critical_factor_refines.
  unfold Spec.critical_factor, Spec.raw_critical_sum.
  split; [|apply Q.le_min_r].
  apply Q.min_glb; [|lra].
  unfold Spec.penalty. repeat case_match; lra.
Qed.

Lemma age_factor_refines a :
  age_factor_of a = Spec.age_factor (age (vital_signs a)).
Proof. reflexivity. Qed.

Lemma age_factor_lower a :
  -80 ≤ age (vital_signs a) → (0 <= 1 + age_factor_of a)%Q.
Proof.
  intros H. unfold age_factor_of.
  assert (-1 <= inject_Z (age (vital_signs a)) / 80)%Q.
  { apply Qle_shift_div_l; [lra|].
    change (-1 * 80)%Q with (inject_Z (-80)). by rewrite <- Zle_Qle. }
  assert (-1 <= Qmin (inject_Z (age (vital_signs a)) / 80) (3 # 2))%Q
    by (apply Q.min_glb; lra).
  lra.
Qed.

Lemma elapsed_minutes_linear now a t :
  timestamp a = Some t →
  (elapsed_minutes now a == inject_Z (now - t) * (1 # 60000000))%Q.
Proof.
  intros E. unfold elapsed_minutes, Py.total_seconds. rewrite E. field.
Qed.

Lemma elapsed_minutes_mono now1 now2 a :
  now1 ≤ now2 → (elapsed_minutes now1 a <= elapsed_minutes now2 a)%Q.
Proof.
  intros H. destruct (timestamp a) as [t|] eqn:E.
  - rewrite !(elapsed_minutes_linear _ a t) by done.
    assert (inject_Z (now1 - t) <= inject_Z (now2 - t))%Q
      by (rewrite <- Zle_Qle; lia).
    lra.
  - unfold elapsed_minutes. rewrite E. lra.
Qed.

Lemma elapsed_minutes_nonneg now a :
  not_before_creation now a → (0 <= elapsed_minutes now a)%Q.
Proof.
  unfold not_before_creation. intros H.
  destruct (timestamp a) as [t|] eqn:E.
  - rewrite (elapsed_minutes_linear _ a t) by done.
    assert (inject_Z 0 <= inject_Z (now - t))%Q by (rewrite <- Zle_Qle; lia).
    change (inject_Z 0) with 0%Q in *. lra.
  - unfold elapsed_minutes. rewrite E. lra.
Qed.

(** The urgency factor as a function of the elapsed minutes, whatever the
    label. *)
Lemma time_urgency_elapsed now a :
  (fst (_calculate_time_urgency now a)
   == 1 + elapsed_minutes now a
          / match level_of (risk_level a) with
            | Some r => Spec.divisor r
            | None => 120
            end)%Q.
Proof.
  rewrite time_urgency_value. unfold elapsed_minutes.
  destruct (timestamp a); [|by destruct (level_of _) as [[]|]].
  destruct (level_of _) as [[]|]; reflexivity.
Qed.

(** For the product of the score: it is non-negative and grows with the
    urgency when the other factors are non-negative. *)
Lemma product_monotone (b c u1 u2 x y : Q) :
  (0 <= b → 0 <= c → 0 <= x → 0 <= y → 0 <= u1 → u1 <= u2 →
   0 <= b * c * u1 * x * y <= b * c * u2 * x * y)%Q.
Proof.
  intros Hb Hc Hx Hy Hu Hle.
  assert (0 <= b * c)%Q by (apply Qmult_le_0_compat; done).
  assert (0 <= b * c * u1)%Q by (apply Qmult_le_0_compat; done).
  assert (b * c * u1 <= b * c * u2)%Q.
  { rewrite !(Qmult_comm (b * c)). apply Qmult_le_compat_r; done. }
  assert (0 <= b * c * u1 * x)%Q by (apply Qmult_le_0_compat; done).
  assert (b * c * u1 * x <= b * c * u2 * x)%Q
    by (apply Qmult_le_compat_r; done).
  split; [apply Qmult_le_0_compat; done|].
  apply Qmult_le_compat_r; done.
Qed.

(** The score of the code is the product of the specification. *)
Lemma score_at_spec (a : RiskAssessment) (now : Z) (r : Spec.RiskLevel) :
  level_of (risk_level a) = Some r →
  (score_at now a
   == Spec.score r (confidence_score a) (elapsed_minutes now a) (vital_signs a))%Q.
Proof.
  intros Hr. rewrite score_at_unfold. unfold Spec.score, Spec.time_urgency.
  rewrite (risk_weight_level _ r Hr), time_urgency_elapsed, Hr,
    critical_factor_refines, age_factor_refines.
  reflexivity.
Qed.

(** C1. For every assessment with a recognised label and every instant,
    the score returned is base × confidence × time_urgency ×
    (1 + age_factor) × (1 + critical_factor), with the base, the divisor,
    the age factor and the capped sum of penalties of the specification;
    when all five indicators are triggered the raw sum is 1.7 and the
    critical factor is exactly 1. *)
Theorem score_formula (a : RiskAssessment) (now : Z) (r : Spec.RiskLevel) :
  level_of (risk_level a) = Some r →
  (score_at now a
   == Spec.score r (confidence_score a) (elapsed_minutes now a) (vital_signs a))%Q
  ∧ (all_five_critical (vital_signs a) = true →
     (Spec.raw_critical_sum (vital_signs a) == 17 # 10)%Q
     ∧ (_calculate_critical_vitals_factor a == 1)%Q).
Proof.
  intros Hr. split; [by apply score_at_spec|].
  - intros Hall. unfold all_five_critical in Hall.
    repeat (apply andb_prop in Hall; destruct Hall as [Hall ?]).
    assert (Hsum : (Spec.raw_critical_sum (vital_signs a) == 17 # 10)%Q).
    { unfold Spec.raw_critical_sum.
      repeat match goal with H : _ = true |- _ => rewrite H; clear H end.
      reflexivity. }
    split; [done|].
    rewrite critical_factor_refines. unfold Spec.critical_factor.
    rewrite Hsum. reflexivity.
Qed.

Lemma score_formula_witness :
  (score_at 7200000000%Z
     (fresh_assessment "High" alarming_vitals (9 # 10) 0%Z)
   == 100 * (9 # 10) * (1 + 120 / 10) * (1 + (65 # 80)) * (1 + 1))%Q
  ∧ (_calculate_critical_vitals_factor
       (fresh_assessment "High" alarming_vitals (9 # 10) 0%Z) == 1)%Q.
Proof.
  pose proof (score_formula
    (fresh_assessment "High" alarming_vitals (9 # 10) 0%Z)
    7200000000 Spec.High eq_refl) as [Hscore Hcap].
  split.
  - rewrite Hscore. reflexivity.
  - apply Hcap. reflexivity.
Defined.

(** C7. The urgency factor is 1 + elapsed_minutes / divisor with divisor 10,
    30 and 120 for High, Medium and Low; for a Low entry it is 2 at 120
    elapsed minutes and above 2 after them. *)
Theorem time_urgency_formula (a : RiskAssessment) (now : Z) (r : Spec.RiskLevel) :
  level_of (risk_level a) = Some r →
  (fst (_calculate_time_urgency now a)
   == Spec.time_urgency r (elapsed_minutes now a))%Q
  ∧ (r = Spec.Low →
     ((elapsed_minutes now a == 120 → fst (_calculate_time_urgency now a) == 2)
      ∧ (120 < elapsed_minutes now a → 2 < fst (_calculate_time_urgency now a)))%Q).
Proof.
  intros Hr.
  assert (Hu : (fst (_calculate_time_urgency now a)
                == Spec.time_urgency r (elapsed_minutes now a))%Q).
  { rewrite time_urgency_elapsed, Hr. reflexivity. }
  split; [done|]. intros ->. rewrite Hu. unfold Spec.time_urgency. simpl.
  assert (E : ∀ e : Q, (1 + e / 120 == 1 + e * (1 # 120))%Q) by (intros; field).
  rewrite E. split; intros; lra.
Qed.

Lemma time_urgency_formula_witness :
  (fst (_calculate_time_urgency 7200000001%Z
          (fresh_assessment "Low" (calm_vitals 25) (7 # 10) 0%Z))
   == 1 + (7200000001 # 60000000) / 120)%Q
  ∧ (2 < fst (_calculate_time_urgency 7200000001
               (fresh_assessment "Low" (calm_vitals 25) (7 # 10) 0%Z)))%Q.
Proof.
  pose proof (time_urgency_formula
    (fresh_assessment "Low" (calm_vitals 25) (7 # 10) 0%Z)
    7200000001 Spec.Low eq_refl) as [Hu Hlow].
  split.
  - rewrite Hu. reflexivity.
  - apply Hlow; reflexivity.
Defined.

(** C10. A label that is none of High, Medium, Low in any casing is scored
    with base weight 10, as Low is, with the slowest divisor, and its
    wait-time estimate uses 20 minutes per position, as Medium does; no
    call fails. *)
Theorem unknown_label_defaults (p : PatientQueue) :
  level_of (risk_level (risk_assessment p)) = None →
  risk_weight (risk_level (risk_assessment p)) = Spec.base Spec.Low
  ∧ (∀ now,
       score_at now (risk_assessment p)
       == 10 * confidence_score (risk_assessment p)
          * (1 + elapsed_minutes now (risk_assessment p) / 120)
          * (1 + Spec.age_factor (age (vital_signs (risk_assessment p))))
          * (1 + Spec.critical_factor (vital_signs (risk_assessment p))))%Q
  ∧ (∀ position,
       calculate_estimated_wait_time p position
       = position * Spec.per_class_minutes Spec.Medium).
Proof.
  intros Hnone. split; [by apply risk_weight_unknown|]. split.
  - intros now. rewrite score_at_unfold, (risk_weight_unknown _ Hnone),
      time_urgency_elapsed, Hnone, critical_factor_refines, age_factor_refines.
    reflexivity.
  - intros position. unfold calculate_estimated_wait_time,
      base_time_per_patient.
    level_tests (risk_level (risk_assessment p)).
    by rewrite Htest, Htest0, Hlevel.
Qed.

Lemma unknown_label_defaults_witness :
  risk_weight "High Risk" = 10%Q
  ∧ calculate_estimated_wait_time
      (fresh_entry (fresh_assessment "High Risk" alarming_vitals (9 # 10) 0)) 3
    = 60.
Proof.
  pose proof (unknown_label_defaults
    (fresh_entry (fresh_assessment "High Risk" alarming_vitals (9 # 10) 0))
    eq_refl) as (Hbase & _ & Hwait).
  split.
  - exact Hbase.
  - exact (Hwait 3).
Defined.

(** Against C8 as stated: the score can be negative and can decrease with
    time; at age -160 the factor 1 + age_factor is -1. *)
Lemma score_negative_at_negative_age :
  (0 <= confidence_score negative_age_high <= 1)%Q
  ∧ ¬ (0 <= score_at 0 negative_age_high)%Q
  ∧ ¬ (score_at 0 negative_age_high <= score_at 600000000 negative_age_high)%Q.
Proof.
  split; [split; by vm_compute|].
  split; intros H; vm_compute in H; by apply H.
Qed.

(** C8, amended. With a confidence in [0,1], an age not below -80 and an
    instant not before the creation, the score is non-negative, and it does
    not decrease when the instant moves forward, everything else fixed. *)
Theorem score_nonneg_monotone (a : RiskAssessment) (now1 now2 : Z) :
  (0 <= confidence_score a <= 1)%Q →
  -80 ≤ age (vital_signs a) →
  not_before_creation now1 a →
  now1 ≤ now2 →
  (0 <= score_at now1 a <= score_at now2 a)%Q.
Proof.
  intros [Hc _] Hage Hcreated Hle.
  rewrite !score_at_unfold.
  pose proof (elapsed_minutes_nonneg now1 a Hcreated) as He1.
  pose proof (elapsed_minutes_mono now1 now2 a Hle) as He.
  pose proof (critical_factor_bounds a) as [Hcf _].
  apply product_monotone; try done.
  - apply risk_weight_nonneg.
  - by apply age_factor_lower.
  - lra.
  - rewrite time_urgency_elapsed.
    destruct (level_of _) as [[]|]; simpl;
      (apply Qle_trans with 1%Q; [lra|]);
      rewrite <- (Qplus_0_r 1) at 1; apply Qplus_le_r;
      apply Qle_shift_div_l; lra.
  - rewrite !time_urgency_elapsed. apply Qplus_le_r.
    destruct (level_of _) as [[]|]; simpl;
      apply Qmult_le_compat_r; try done; by vm_compute.
Qed.

Lemma score_nonneg_monotone_witness :
  (0 <= score_at 0 (fresh_assessment "Medium" (calm_vitals 75) (8 # 10) 0)
   <= score_at 1800000000 (fresh_assessment "Medium" (calm_vitals 75) (8 # 10) 0))%Q.
Proof.
  apply (score_nonneg_monotone
           (fresh_assessment "Medium" (calm_vitals 75) (8 # 10) 0) 0 1800000000).
  - split; by vm_compute.
  - simpl. lia.
  - unfold not_before_creation. simpl. lia.
  - lia.
Defined.

(* ------------------------------------------------------------------ *)
(** ** The stable descending sort *)

Section StableSort.
Context {A : Type}.
Implicit Types (x y : Q * A) (l : list (Q * A)).

Lemma insert_desc_perm x l : insert_desc x l ≡ₚ x :: l.
Proof.
  induction l as [|y r IH]; simpl; [done|].
  destruct (Qlt_le_dec (fst x) (fst y)); [|done].
  rewrite IH. apply Permutation_swap.
Qed.

Lemma sort_desc_perm l : sort_desc l ≡ₚ l.
Proof.
  induction l as [|x r IH]; simpl; [done|].
  by rewrite insert_desc_perm, IH.
Qed.

Lemma sort_desc_length l : length (sort_desc l) = length l.
Proof. by rewrite sort_desc_perm. Qed.

Variable R0 : relation A.

Lemma insert_desc_sorted x l :
  Forall (λ y, R0 (snd x) (snd y)) l →
  StronglySorted (sorted_before R0) l →
  StronglySorted (sorted_before R0) (insert_desc x l).
Proof.
  induction l as [|y r IH]; simpl; intros Hx Hs.
  - repeat constructor.
  - apply Forall_cons in Hx as [Hxy Hxr].
    apply StronglySorted_inv in Hs as [Hs Hy].
    destruct (Qlt_le_dec (fst x) (fst y)) as [Hlt|Hle].
    + constructor; [by apply IH|].
      rewrite insert_desc_perm. constructor; [by left|done].
    + constructor; [by constructor|].
      assert (Hxy' : sorted_before R0 x y).
      { destruct (Qlt_le_dec (fst y) (fst x)); [by left|].
        right. split; [by apply Qle_antisym|done]. }
      constructor; [done|].
      rewrite Forall_forall in Hy, Hxr. apply Forall_forall. intros z Hz.
      specialize (Hy z Hz). specialize (Hxr z Hz).
      destruct Hy as [Hlt|[Heq _]].
      * left. lra.
      * destruct (Qlt_le_dec (fst z) (fst x)); [by left|].
        right. split; [lra|done].
Qed.

Lemma sort_desc_sorted l :
  StronglySorted (λ x y, R0 (snd x) (snd y)) l →
  StronglySorted (sorted_before R0) (sort_desc l).
Proof.
  induction 1 as [|x r Hs IH Hx]; simpl; [constructor|].
  apply insert_desc_sorted; [|done].
  by rewrite sort_desc_perm.
Qed.

End StableSort.

(** Sortedness carries over two lists related element by element. *)
Lemma StronglySorted_Forall2 {A B : Type} (R : relation A) (R' : relation B)
    (E : A → B → Prop) (l : list A) (l' : list B) :
  (∀ x x' y y', E x x' → E y y' → R x y → R' x' y') →
  Forall2 E l l' → StronglySorted R l → StronglySorted R' l'.
Proof.
  intros HE HF. induction HF as [|x x' l l' Hx HF IH]; intros Hs.
  - constructor.
  - apply StronglySorted_inv in Hs as [Hs Hall].
    constructor; [by apply IH|].
    clear IH Hs. induction HF as [|y y' l l' Hy HF IH]; [constructor|].
    apply Forall_cons in Hall as [Hxy Hall].
    constructor; [by eapply HE|by apply IH].
Qed.

(* ------------------------------------------------------------------ *)
(** ** What the scoring calls read and write *)

Lemma calculate_priority_score_snd now a :
  snd (calculate_priority_score now a)
  = set_priority_score
      (match timestamp a with None => set_timestamp a now | Some _ => a end)
      (score_at now a).
Proof.
  unfold score_at, calculate_priority_score.
  pose proof (time_urgency_assessment now a) as Ha.
  destruct (_calculate_time_urgency now a) as [u a1]. simpl in *. subst a1.
  destruct (timestamp a); done.
Qed.

Lemma refresh_inputs now a :
  stamped a → scoring_inputs (refresh_assessment now a) = scoring_inputs a.
Proof.
  unfold stamped, refresh_assessment. rewrite calculate_priority_score_snd.
  destruct (timestamp a) eqn:E; [|done]. intros _.
  unfold scoring_inputs. simpl. by rewrite E.
Qed.

Lemma refresh_risk_level now a :
  risk_level (refresh_assessment now a) = risk_level a.
Proof.
  unfold refresh_assessment. rewrite calculate_priority_score_snd.
  by destruct (timestamp a).
Qed.

Lemma score_at_inputs now a b :
  scoring_inputs a = scoring_inputs b → score_at now a = score_at now b.
Proof.
  unfold scoring_inputs. intros [= Hl Hc Hv Ht].
  rewrite !score_at_unfold, !time_urgency_value.
  unfold elapsed_minutes, age_factor_of, _calculate_critical_vitals_factor.
  by rewrite Hl, Hc, Hv, Ht.
Qed.

Lemma get_final_priority_snd now p :
  snd (get_final_priority now p)
  = set_risk_assessment p (refresh_assessment now (risk_assessment p)).
Proof.
  unfold get_final_priority, refresh_assessment.
  destruct (calculate_priority_score now (risk_assessment p)) as [k a1].
  by destruct (String.eqb _ _).
Qed.

Lemma final_priority_value now p :
  final_priority now p
  = if String.eqb (Py.lower (risk_level (risk_assessment p))) "low"
    then (score_at now (risk_assessment p) + rl_adjustment p)%Q
    else score_at now (risk_assessment p).
Proof.
  unfold final_priority, get_final_priority, score_at.
  pose proof (refresh_risk_level now (risk_assessment p)) as Hl.
  unfold refresh_assessment in Hl.
  destruct (calculate_priority_score now (risk_assessment p)) as [k a1].
  simpl in *. rewrite Hl. by destruct (String.eqb _ _).
Qed.

(** Two entries with the same scoring inputs and the same adjustment have
    the same final priority. *)
Lemma final_priority_inputs now p q :
  scoring_inputs (risk_assessment p) = scoring_inputs (risk_assessment q) →
  rl_adjustment p = rl_adjustment q →
  final_priority now p = final_priority now q.
Proof.
  intros Hin Hadj. rewrite !final_priority_value, Hadj, (score_at_inputs _ _ _ Hin).
  unfold scoring_inputs in Hin. injection Hin as -> _ _ _. done.
Qed.

Lemma action_effect_boost_bounds action :
  (-8 <= snd (action_effect action) <= 10)%Q.
Proof. unfold action_effect. repeat case_match; simpl; lra. Qed.

(* ------------------------------------------------------------------ *)
(** ** The stages of a snapshot *)

Lemma make_queue_items_Some i l :
  Forall stamped l → ∃ ps, make_queue_items i l = Some ps.
Proof.
  intros H. revert i. induction H as [|a l Ha _ IH]; intros i; simpl.
  - by eexists.
  - destruct (timestamp a) eqn:E; [|done]. simpl.
    destruct (IH (i + 1)) as [ps ->]. by eexists.
Qed.

Lemma make_queue_items_spec i l ps :
  make_queue_items i l = Some ps →
  Forall stamped l
  ∧ Forall2 (λ a p, risk_assessment p = a ∧ rl_adjustment p = 0%Q) l ps.
Proof.
  revert i ps. induction l as [|a l IH]; simpl; intros i ps H.
  - simplify_eq. by split; constructor.
  - destruct (timestamp a) eqn:E; [|done]. simpl in H.
    destruct (make_queue_items (i + 1) l) as [items|] eqn:Ei; [|done].
    simpl in H. simplify_eq. destruct (IH _ _ Ei) as [Hs HF].
    split; constructor; try done. unfold stamped. by rewrite E.
Qed.

Lemma ensure_state_rows s state :
  rows_nonempty (q_table s) → rows_nonempty (q_table (ensure_state s state)).
Proof.
  intros H. unfold ensure_state. destruct (q_table s !! state) eqn:E; [done|].
  simpl. intros k row. rewrite lookup_insert. case_decide; [|by apply H].
  by intros [= <-].
Qed.

Lemma ensure_state_lookup s state :
  is_Some (q_table (ensure_state s state) !! state).
Proof.
  unfold ensure_state. destruct (q_table s !! state) eqn:E.
  - by rewrite E.
  - simpl. by rewrite lookup_insert_eq.
Qed.

(** With a table without empty row, an action is always chosen, and the
    table keeps that shape. *)
Lemma choose_action_Some s g state :
  rows_nonempty (q_table s) →
  ∃ action s1 g1,
    choose_action s g state = Some (action, s1, g1)
    ∧ rows_nonempty (q_table s1).
Proof.
  intros H. unfold choose_action.
  pose proof (ensure_state_rows s state H) as H1.
  destruct (np_random_random g) as [u g1].
  destruct (Qlt_le_dec u _).
  - destruct (np_random_choice g1 actions). eauto 6.
  - destruct (ensure_state_lookup s state) as [row Hrow]. rewrite Hrow.
    destruct row as [|kv row]; [by apply H1 in Hrow|]. simpl. eauto 6.
Qed.

Lemma rl_pass_Some s g now queue_info ps :
  rows_nonempty (q_table s) →
  ∃ out s' g', rl_pass s g now queue_info ps = Some (out, s', g').
Proof.
  revert s g. induction ps as [|p ps IH]; intros s g Hrows; simpl.
  - eauto.
  - destruct (String.eqb _ _).
    + destruct (choose_action_Some s g (get_state now p queue_info) Hrows)
        as (action & s1 & g1 & -> & Hrows1). simpl.
      destruct (IH s1 g1 Hrows1) as (out & s' & g' & ->). simpl. eauto.
    + destruct (IH s g Hrows) as (out & s' & g' & ->). simpl. eauto.
Qed.

Lemma rl_pass_spec s g now queue_info ps out s' g' :
  rl_pass s g now queue_info ps = Some (out, s', g') →
  Forall2 (rl_step now queue_info) ps out.
Proof.
  revert s g out. induction ps as [|p ps IH]; intros s g out; simpl.
  - intros [= <- _ _]. constructor.
  - destruct (String.eqb _ _) eqn:Elow.
    + destruct (choose_action s g _) as [[[action s1] g1]|]; [|done]. simpl.
      destruct (rl_pass s1 g1 now queue_info ps) as [[[out' s2] g2]|] eqn:E;
        [|done].
      simpl. intros ?; simplify_eq. constructor; [|by eapply IH].
      unfold rl_step. rewrite Elow. by exists action.
    + destruct (rl_pass s g now queue_info ps) as [[[out' s2] g2]|] eqn:E;
        [|done].
      simpl. intros ?; simplify_eq. constructor; [|by eapply IH].
      unfold rl_step. by rewrite Elow.
Qed.

Lemma rl_step_assessment now queue_info p p' :
  rl_step now queue_info p p' →
  risk_assessment p' = risk_assessment p ∧ patient_id p' = patient_id p.
Proof.
  unfold rl_step. destruct (String.eqb _ _).
  - by intros [action ->].
  - by intros ->.
Qed.

Lemma rl_step_adjustment now queue_info p p' :
  rl_step now queue_info p p' →
  rl_adjustment p = 0%Q →
  (-8 <= rl_adjustment p' <= 10)%Q.
Proof.
  unfold rl_step. destruct (String.eqb _ _).
  - intros [action ->] _. simpl. apply action_effect_boost_bounds.
  - intros -> ->. lra.
Qed.

Lemma assign_positions_spec i l :
  Forall2 same_ranking l (assign_positions i l).
Proof.
  revert i. induction l as [|p l IH]; intros i; simpl; constructor; done.
Qed.

Lemma finalize_queue_spec i l :
  Forall2 same_ranking l (finalize_queue i l).
Proof.
  revert i. induction l as [|p l IH]; intros i; simpl; constructor; done.
Qed.

Lemma finalize_queue_positions i l :
  queue_position <$> finalize_queue i l = seqZ (i + 1) (Z.of_nat (length l)).
Proof.
  revert i. induction l as [|p l IH]; intros i; [done|].
  cbn [finalize_queue fmap list_fmap length]. rewrite IH.
  rewrite Nat2Z.inj_succ, (seqZ_cons (i + 1)) by lia. simpl.
  f_equal. f_equal; lia.
Qed.

Lemma finalize_queue_wait i l :
  Forall wait_matches_rank (finalize_queue i l).
Proof.
  revert i. induction l as [|p l IH]; intros i; simpl; constructor; [|done].
  unfold wait_matches_rank. simpl.
  replace (i + 1 - 1) with i by lia. done.
Qed.

Lemma same_ranking_final_priority now p e :
  same_ranking p e → final_priority now e = final_priority now p.
Proof.
  intros (Ha & Hadj & _). apply final_priority_inputs; [by rewrite Ha|done].
Qed.

Lemma refresh_idem now a :
  stamped a →
  refresh_assessment now (refresh_assessment now a) = refresh_assessment now a.
Proof.
  intros Ha. pose proof (refresh_inputs now a Ha) as Hin.
  unfold refresh_assessment in *. rewrite !calculate_priority_score_snd in *.
  unfold stamped in Ha. destruct (timestamp a) eqn:E; [|done].
  simpl. rewrite E. unfold set_priority_score at 1. simpl.
  unfold set_priority_score. f_equal. by apply score_at_inputs.
Qed.

Lemma refresh_stamped now a : stamped (refresh_assessment now a).
Proof.
  unfold stamped, refresh_assessment. rewrite calculate_priority_score_snd.
  by destruct (timestamp a) eqn:E; simpl; rewrite ?E.
Qed.

Lemma decorate_spec now s g queue_info assessments ps0 ps2 s' g' :
  make_queue_items 0 assessments = Some ps0 →
  rl_pass s g now queue_info (refresh_score now <$> ps0) = Some (ps2, s', g') →
  Forall2 (decorated_from now) assessments (get_final_priority now <$> ps2).
Proof.
  intros Hmake Hrl.
  apply make_queue_items_spec in Hmake as [Hst Hmake].
  apply rl_pass_spec in Hrl. rewrite Forall2_fmap_l in Hrl.
  apply Forall2_fmap_r.
  assert (Hst' : Forall2 (λ a p, stamped a ∧ risk_assessment p = a
                                  ∧ rl_adjustment p = 0%Q) assessments ps0).
  { clear Hrl. induction Hmake as [|a p l k [? ?] _ IH]; [constructor|].
    apply Forall_cons in Hst as [? ?]. constructor; auto. }
  eapply Forall2_trans; [|exact Hst'|exact Hrl].
  intros a p0 p2 (Ha & Hra & Hadj) Hstep. simpl in Hstep.
  destruct (rl_step_assessment _ _ _ _ Hstep) as [Hra2 _].
  pose proof (rl_step_adjustment _ _ _ _ Hstep Hadj) as Hb.
  simpl in Hra2. rewrite Hra in Hra2. fold (refresh_assessment now a) in Hra2.
  unfold decorated_from, compose. rewrite get_final_priority_snd. simpl.
  rewrite Hra2. rewrite (refresh_idem now a) by done.
  split; [done|]. split; [done|]. split; [|done].
  fold (final_priority now p2). apply final_priority_inputs; simpl; [|done].
  by rewrite Hra2.
Qed.

Lemma Forall2_fmap_eq {A B C : Type} (f : A → C) (g : B → C) l k :
  Forall2 (λ x y, f x = g y) l k → f <$> l = g <$> k.
Proof.
  induction 1 as [|x y l k H _ IH]; [done|].
  cbn [fmap list_fmap] in *. by rewrite H, IH.
Qed.

(** Every snapshot is the stable descending sort of the decorated entries,
    renumbered, with the wait times of the ranks. *)
Lemma manage_patient_queue_inv file g now assessments q g' :
  manage_patient_queue file g now assessments = Some (q, g') →
  ∃ L,
    Forall2 (decorated_from now) assessments L
    ∧ Forall2 (λ x e, same_ranking (snd x) e) (sort_desc L) q
    ∧ queue_position <$> q = seqZ 1 (Z.of_nat (length q))
    ∧ Forall wait_matches_rank q.
Proof.
  unfold manage_patient_queue, calculate_dynamic_priority,
    schedule_patients_with_rl, sort_by_final_priority.
  destruct (make_queue_items 0 assessments) as [ps0|] eqn:Hmake; [|done].
  simpl. set (queue_info := mkQueueInfo _ _ _ _ _).
  destruct (rl_pass _ g now queue_info _) as [[[ps2 s1] g1]|] eqn:Hrl; [|done].
  simpl. intros [= <- <-].
  exists (get_final_priority now <$> ps2).
  split; [by eapply decorate_spec|].
  split; [|split].
  - apply (Forall2_fmap_l snd same_ranking).
    eapply Forall2_trans; [|apply assign_positions_spec|apply finalize_queue_spec].
    intros p e1 e2 (?&?&?) (?&?&?). unfold same_ranking. split_and!; congruence.
  - rewrite finalize_queue_positions. f_equal.
    by rewrite (Forall2_length _ _ _ (finalize_queue_spec 0 _)).
  - apply finalize_queue_wait.
Qed.

Lemma Forall2_Forall_right {A B : Type} (P : A → B → Prop) (Q : B → Prop) l k :
  (∀ x y, P x y → Q y) → Forall2 P l k → Forall Q k.
Proof. intros HPQ. induction 1; constructor; eauto. Qed.

Lemma Forall2_Forall_conj {A B : Type} (P : A → Prop) (R : A → B → Prop) l k :
  Forall P l → Forall2 R l k → Forall2 (λ x y, P x ∧ R x y) l k.
Proof.
  intros HP HR. induction HR; [constructor|].
  apply Forall_cons in HP as [? ?]. constructor; auto.
Qed.

Lemma StronglySorted_lookup {A : Type} (R : relation A) l i j x y :
  StronglySorted R l → l !! i = Some x → l !! j = Some y → (i < j)%nat → R x y.
Proof.
  intros Hs. revert i j. induction Hs as [|a l Hs IH Hall]; intros i j; [done|].
  destruct i as [|i], j as [|j]; simpl; try lia.
  - intros [= <-] Hy _. rewrite Forall_forall in Hall. apply Hall.
    by eapply list_elem_of_lookup_2.
  - intros Hx Hy Hlt. apply (IH i j); [done|done|lia].
Qed.

Lemma refresh_timestamp now a :
  stamped a → timestamp (refresh_assessment now a) = timestamp a.
Proof.
  intros Ha. pose proof (refresh_inputs now a Ha) as Hin.
  unfold scoring_inputs in Hin. by injection Hin.
Qed.

Lemma refresh_admitted_before now a b :
  stamped a → stamped b → admitted_before a b →
  admitted_before (refresh_assessment now a) (refresh_assessment now b).
Proof.
  intros Ha Hb. unfold admitted_before.
  by rewrite !refresh_timestamp.
Qed.

(** A snapshot is sorted by descending final priority, and entries of equal
    final priority keep any order [R0] the stored assessments were in. *)
Lemma snapshot_sorted_by (R0 : relation RiskAssessment) file g now assessments q g' :
  (∀ a b, stamped a → stamped b → R0 a b →
          R0 (refresh_assessment now a) (refresh_assessment now b)) →
  manage_patient_queue file g now assessments = Some (q, g') →
  StronglySorted R0 assessments →
  StronglySorted (ranks_by R0 now) q.
Proof.
  intros HR0 Hq Hs.
  destruct (manage_patient_queue_inv _ _ _ _ _ _ Hq) as (L & HL & HS & _ & _).
  assert (HsL : StronglySorted
                  (λ x y, R0 (risk_assessment (snd x)) (risk_assessment (snd y))) L).
  { eapply StronglySorted_Forall2; [|exact HL|exact Hs].
    intros a x b y (Ha & -> & _) (Hb & -> & _). by apply HR0. }
  apply (sort_desc_sorted
           (λ p p', R0 (risk_assessment p) (risk_assessment p'))) in HsL.
  assert (Hkey : Forall (λ x, fst x = final_priority now (snd x)) (sort_desc L)).
  { rewrite sort_desc_perm.
    eapply Forall2_Forall_right; [|exact HL]. by intros a x (_ & _ & ? & _). }
  eapply StronglySorted_Forall2;
    [|exact (Forall2_Forall_conj _ _ _ _ Hkey HS)|exact HsL].
  intros x ex y ey [Hkx Hex] [Hky Hey] Hxy.
  pose proof (same_ranking_final_priority now _ _ Hex) as Hfx.
  pose proof (same_ranking_final_priority now _ _ Hey) as Hfy.
  destruct Hex as (Hax & _), Hey as (Hay & _).
  unfold ranks_by. rewrite Hfx, Hfy, Hax, Hay, <- Hkx, <- Hky.
  exact Hxy.
Qed.

Lemma manage_patient_queue_Some file g now assessments :
  Forall stamped assessments →
  rows_nonempty (load_q_table file) →
  ∃ q g', manage_patient_queue file g now assessments = Some (q, g').
Proof.
  intros Hst Hrows. unfold manage_patient_queue, calculate_dynamic_priority,
    schedule_patients_with_rl.
  destruct (make_queue_items_Some 0 _ Hst) as [ps0 ->]. simpl.
  set (queue_info := mkQueueInfo _ _ _ _ _).
  destruct (rl_pass_Some (new_scheduler file) g now queue_info
              (map (refresh_score now) ps0) Hrows) as (out & s' & g' & ->).
  simpl. eauto.
Qed.

Lemma manage_patient_queue_length file g now assessments q g' :
  manage_patient_queue file g now assessments = Some (q, g') →
  length q = length assessments.
Proof.
  intros Hq.
  destruct (manage_patient_queue_inv _ _ _ _ _ _ Hq) as (L & HL & HS & _ & _).
  apply Forall2_length in HL, HS. rewrite sort_desc_length in HS. lia.
Qed.

Lemma final_priority_low_adjustment now p :
  (final_priority now p == score_at now (risk_assessment p) + low_adjustment p)%Q.
Proof.
  rewrite final_priority_value. unfold low_adjustment.
  pose proof (level_of_cases (risk_level (risk_assessment p))) as H.
  destruct (level_of _) as [[]|]; cbv beta iota in H.
  - assert (E : String.eqb (Py.lower (risk_level (risk_assessment p))) "low" = false).
    { destruct (String.eqb _ "low") eqn:El; [|done].
      apply String.eqb_eq in El. rewrite El in H. done. }
    rewrite E. lra.
  - destruct H as (_ & Hm).
    assert (E : String.eqb (Py.lower (risk_level (risk_assessment p))) "low" = false).
    { destruct (String.eqb _ "low") eqn:El; [|done].
      apply String.eqb_eq in El. rewrite El in Hm. done. }
    rewrite E. lra.
  - destruct H as (_ & _ & ->). lra.
  - destruct H as (_ & _ & ->). lra.
Qed.

Lemma rows_nonempty_no_file : rows_nonempty (load_q_table None).
Proof. intros k row. simpl. by rewrite lookup_empty. Qed.



(** What [GET /queue/] reports for an entry of the snapshot. *)
Lemma queue_response_fields now e :
  resp_priority_score (queue_response now e) = final_priority now e
  ∧ resp_queue_position (queue_response now e) = queue_position e
  ∧ resp_estimated_wait_time (queue_response now e) = estimated_wait_time e.
Proof.
  unfold queue_response, final_priority.
  pose proof (get_final_priority_snd now e) as Hsnd.
  destruct (get_final_priority now e) as [k e1]. simpl in *. by subst e1.
Qed.

(* ------------------------------------------------------------------ *)
(** ** The stored queue stays in admission order *)

Lemma StronglySorted_filter {A : Type} (R : relation A) (P : A → Prop)
    `{∀ x, Decision (P x)} (l : list A) :
  StronglySorted R l → StronglySorted R (filter P l).
Proof.
  induction 1 as [|x l Hs IH Hx]; [constructor|].
  rewrite filter_cons. destruct (decide (P x)); [|done].
  constructor; [done|].
  rewrite Forall_forall in Hx. apply Forall_forall.
  intros y Hy. apply list_elem_of_filter in Hy as [_ Hy]. by apply Hx.
Qed.

Lemma admission_ordered_refresh now l :
  admission_ordered l → admission_ordered (refresh_assessment now <$> l).
Proof.
  intros [Hst Hs]. split.
  - apply Forall_fmap, Forall_forall. intros a _. apply refresh_stamped.
  - clear -Hst Hs. induction Hs as [|a l Hs IH Ha]; [constructor|].
    apply Forall_cons in Hst as [Hsa Hst].
    cbn [fmap list_fmap]. constructor; [by apply IH|].
    apply Forall_fmap, Forall_forall. intros b Hb.
    rewrite Forall_forall in Ha, Hst.
    apply refresh_admitted_before; auto.
Qed.

Lemma admission_ordered_filter (P : RiskAssessment → Prop)
    `{∀ a, Decision (P a)} l :
  admission_ordered l → admission_ordered (filter P l).
Proof.
  intros [Hst Hs]. split; [|by apply StronglySorted_filter].
  rewrite Forall_forall in Hst. apply Forall_forall.
  intros a Ha. apply list_elem_of_filter in Ha as [_ Ha]. by apply Hst.
Qed.

Lemma admission_ordered_snoc l a :
  admission_ordered l → stamped a → Forall (λ b, admitted_before b a) l →
  admission_ordered (l ++ [a]).
Proof.
  intros [Hst Hs] Ha Hb. split.
  - apply Forall_app. split; [done|]. by constructor.
  - apply StronglySorted_app_2; [|done|repeat constructor].
    intros b a' Hin Ha'. apply list_elem_of_singleton in Ha' as ->.
    rewrite Forall_forall in Hb. by apply Hb.
Qed.

(** Admitting a patient at an instant not before the earlier admissions,
    reading the queue, serving the next patient and clearing the queue all
    leave the stored assessments stamped and in admission order. *)
Lemma predict_keeps_admission_order w now vitals label confidence r w' :
  admission_ordered (patient_assessments w) →
  Forall (λ a, ∃ t, timestamp a = Some t ∧ t ≤ now) (patient_assessments w) →
  predict_risk_with_priority w now vitals label confidence = Some (r, w') →
  admission_ordered (patient_assessments w').
Proof.
  intros Hord Hnow. unfold predict_risk_with_priority.
  destruct (manage_patient_queue _ _ _ _) as [[q g1]|]; [|done]. simpl.
  intros [= _ <-]. simpl. apply admission_ordered_refresh.
  apply admission_ordered_snoc; [done|apply refresh_stamped|].
  eapply Forall_impl; [exact Hnow|]. intros a (t & Ht & Hle).
  exists t, now. split; [done|]. split; [|done].
  unfold create_risk_assessment_with_priority.
  by rewrite refresh_timestamp.
Qed.

Lemma get_patient_queue_keeps_admission_order w now r w' :
  admission_ordered (patient_assessments w) →
  get_patient_queue w now = Some (r, w') →
  admission_ordered (patient_assessments w').
Proof.
  intros Hord. unfold get_patient_queue.
  destruct (patient_assessments w) eqn:E; [by intros [= _ <-]; rewrite E|].
  destruct (manage_patient_queue _ _ _ _) as [[q g1]|]; [|done]. simpl.
  intros [= _ <-]. by apply (admission_ordered_refresh now (_ :: _)).
Qed.

Lemma get_next_patient_keeps_admission_order w now r w' :
  admission_ordered (patient_assessments w) →
  get_next_patient w now = Some (r, w') →
  admission_ordered (patient_assessments w').
Proof.
  intros Hord. unfold get_next_patient.
  destruct (patient_assessments w) eqn:E; [by intros [= _ <-]; rewrite E|].
  destruct (manage_patient_queue _ _ _ _) as [[q g1]|]; [|done]. simpl.
  destruct (pm_get_next_patient _ _ _ _) as [[[next m] g2]|]; [|done]. simpl.
  destruct next; intros [= _ <-].
  - by apply admission_ordered_filter,
      (admission_ordered_refresh now (_ :: _)).
  - by apply (admission_ordered_refresh now (_ :: _)).
Qed.

Lemma clear_queue_keeps_admission_order w :
  admission_ordered (patient_assessments (snd (clear_queue w))).
Proof. split; constructor. Qed.

(* ------------------------------------------------------------------ *)
(** ** Wait times *)


Lemma snapshot_position file g now assessments q g' (i : nat) e :
  manage_patient_queue file g now assessments = Some (q, g') →
  q !! i = Some e → queue_position e = 1 + Z.of_nat i.
Proof.
  intros Hq Hi.
  destruct (manage_patient_queue_inv _ _ _ _ _ _ Hq) as (_ & _ & _ & Hpos & _).
  assert (H : (queue_position <$> q) !! i = Some (queue_position e))
    by (by rewrite list_lookup_fmap, Hi).
  rewrite Hpos in H. by apply lookup_seqZ in H as [-> _].
Qed.




(* ------------------------------------------------------------------ *)
(** ** High against Low *)

Lemma StronglySorted_trivial {A : Type} (l : list A) :
  StronglySorted (λ _ _, True) l.
Proof. induction l; constructor; [done|]. by apply Forall_forall. Qed.

(** A snapshot is in descending order of final priority, whatever the order
    of the stored assessments. *)
Lemma snapshot_descending file g now assessments q g' :
  manage_patient_queue file g now assessments = Some (q, g') →
  StronglySorted (λ x y, (final_priority now y <= final_priority now x)%Q) q.
Proof.
  intros Hq.
  pose proof (snapshot_sorted_by (λ _ _, True) file g now assessments q g'
                (λ _ _ _ _ _, I) Hq (StronglySorted_trivial _)) as Hs.
  eapply StronglySorted_Forall2; [|apply Forall_Forall2_diag|exact Hs].
  - intros x x' y y' -> -> [Hlt|[Heq _]]; lra.
  - by apply Forall_forall.
Qed.

Lemma snapshot_adjustment_bounds file g now assessments q g' :
  manage_patient_queue file g now assessments = Some (q, g') →
  Forall (λ e, (-8 <= rl_adjustment e <= 10)%Q) q.
Proof.
  intros Hq.
  destruct (manage_patient_queue_inv _ _ _ _ _ _ Hq) as (L & HL & HS & _ & _).
  assert (Hb : Forall (λ x, (-8 <= rl_adjustment (snd x) <= 10)%Q) (sort_desc L)).
  { rewrite sort_desc_perm.
    eapply Forall2_Forall_right; [|exact HL]. by intros a x (_ & _ & _ & ?). }
  eapply Forall2_Forall_right; [|exact (Forall2_Forall_conj _ _ _ _ Hb HS)].
  intros x e [Hx (_ & -> & _)]. exact Hx.
Qed.

Lemma high_beats_low (c e A C adj : Q) :
  (0 <= e → 1 # 9 < c * A * C → adj <= 10 →
   10 * c * (1 + e / 120) * A * C + adj < 100 * c * (1 + e / 10) * A * C)%Q.
Proof.
  intros He HK Hadj.
  assert (E1 : (10 * c * (1 + e / 120) * A * C
                == (c * A * C) * 10 + (c * A * C) * e * (1 # 12))%Q) by field.
  assert (E2 : (100 * c * (1 + e / 10) * A * C
                == (c * A * C) * 100 + (c * A * C) * e * 10)%Q) by field.
  rewrite E1, E2.
  assert (0 <= (c * A * C) * e)%Q by (apply Qmult_le_0_compat; lra).
  generalize dependent (c * A * C * e)%Q. intros Ke _ _ HKe.
  generalize dependent (c * A * C)%Q. intros K HK. lra.
Qed.

(** Against C6 as stated: with the default confidence 0.0 both scores are 0
    and the Low entry, given the action [immediate] by a fresh table, is
    ranked first. *)
Lemma low_first_at_default_confidence :
  ∃ q g' eh el,
    manage_patient_queue None quiet_rng 0 high_and_low_default = Some (q, g')
    ∧ eh ∈ q ∧ el ∈ q
    ∧ level_of (risk_level (risk_assessment eh)) = Some Spec.High
    ∧ level_of (risk_level (risk_assessment el)) = Some Spec.Low
    ∧ created_at eh = created_at el
    ∧ confidence_score (risk_assessment eh) = default_confidence
    ∧ confidence_score (risk_assessment el) = default_confidence
    ∧ vital_signs (risk_assessment eh) = vital_signs (risk_assessment el)
    ∧ rl_action el = Some "immediate"%string
    ∧ ¬ queue_position eh < queue_position el.
Proof.
  eexists _, _, _, _. split; [vm_compute; reflexivity|].
  split; [apply list_elem_of_further, list_elem_of_here|].
  split; [apply list_elem_of_here|].
  repeat (split; [reflexivity|]). simpl. lia.
Qed.

(** C6, amended. A High and a Low entry created at the same instant with the
    same confidence c and the same vitals, where c × (1 + age_factor) ×
    (1 + critical_factor) exceeds 1/9: in every snapshot taken at or after
    that instant the High entry has the larger final priority and the
    smaller position, whatever action was selected for the Low entry. *)
Theorem high_outranks_low file g now assessments q g' eh el t :
  manage_patient_queue file g now assessments = Some (q, g') →
  eh ∈ q → el ∈ q →
  level_of (risk_level (risk_assessment eh)) = Some Spec.High →
  level_of (risk_level (risk_assessment el)) = Some Spec.Low →
  created_at eh = Some t → created_at el = Some t → t ≤ now →
  confidence_score (risk_assessment el) = confidence_score (risk_assessment eh) →
  vital_signs (risk_assessment el) = vital_signs (risk_assessment eh) →
  (1 # 9 < confidence_score (risk_assessment eh)
           * (1 + Spec.age_factor (age (vital_signs (risk_assessment eh))))
           * (1 + Spec.critical_factor (vital_signs (risk_assessment eh))))%Q →
  (final_priority now el < final_priority now eh)%Q
  ∧ queue_position eh < queue_position el.
Proof.
  intros Hq Heh Hel Hh Hl Hth Htl Ht Hc Hv HK.
  assert (Hlt : (final_priority now el < final_priority now eh)%Q).
  { rewrite !final_priority_low_adjustment. unfold low_adjustment.
    rewrite Hh, Hl, (score_at_spec _ _ _ Hh), (score_at_spec _ _ _ Hl).
    assert (He : elapsed_minutes now (risk_assessment el)
                 = elapsed_minutes now (risk_assessment eh)).
    { unfold elapsed_minutes. unfold created_at in *. by rewrite Hth, Htl. }
    assert (He0 : (0 <= elapsed_minutes now (risk_assessment eh))%Q).
    { apply elapsed_minutes_nonneg. unfold not_before_creation.
      unfold created_at in Hth. by rewrite Hth. }
    pose proof (snapshot_adjustment_bounds _ _ _ _ _ _ Hq) as Hb.
    rewrite Forall_forall in Hb. destruct (Hb el Hel) as [_ Hadj].
    unfold Spec.score, Spec.time_urgency. rewrite Hc, Hv, He. simpl.
    rewrite Qplus_0_r. by apply high_beats_low. }
  split; [done|].
  apply list_elem_of_lookup in Heh as [i Hi], Hel as [j Hj].
  rewrite (snapshot_position _ _ _ _ _ _ _ _ Hq Hi),
    (snapshot_position _ _ _ _ _ _ _ _ Hq Hj).
  pose proof (snapshot_descending _ _ _ _ _ _ Hq) as Hs.
  destruct (lt_eq_lt_dec i j) as [[Hij|Hij]|Hij]; [lia| |].
  - subst j. rewrite Hi in Hj. injection Hj as ->. lra.
  - pose proof (StronglySorted_lookup _ _ _ _ _ _ Hs Hj Hi Hij). simpl in *. lra.
Qed.

Lemma high_outranks_low_witness :
  ∃ q g' eh el,
    manage_patient_queue None quiet_rng 600000000 high_and_low_confident
    = Some (q, g')
    ∧ eh ∈ q ∧ el ∈ q
    ∧ risk_level (risk_assessment eh) = "High"%string
    ∧ risk_level (risk_assessment el) = "Low"%string
    ∧ rl_action el = Some "immediate"%string
    ∧ queue_position eh < queue_position el.
Proof.
  eexists _, _, _, _.
  assert (Hq : manage_patient_queue None quiet_rng 600000000
                 high_and_low_confident = Some _) by (vm_compute; reflexivity).
  split; [exact Hq|].
  assert (Hh : ∀ {A} (x y : A), x ∈ [x; y]) by (intros; apply list_elem_of_here).
  assert (Hl : ∀ {A} (x y : A), y ∈ [x; y])
    by (intros; apply list_elem_of_further, list_elem_of_here).
  split; [apply Hh|]. split; [apply Hl|].
  repeat (split; [reflexivity|]).
  eapply (high_outranks_low _ _ _ _ _ _ _ _ 0 Hq (Hh _ _ _) (Hl _ _ _)).
  - reflexivity.
  - reflexivity.
  - reflexivity.
  - reflexivity.
  - lia.
  - reflexivity.
  - reflexivity.
  - by vm_compute.
Defined.

(* ------------------------------------------------------------------ *)
(** ** Serving the next patient *)

Lemma get_next_patient_empty file g now :
  get_next_patient (mkWorld [] file g) now
  = Some (HTTPException 404 "No patients in queue", mkWorld [] file g).
Proof. reflexivity. Qed.

Lemma manage_patient_queue_stamped file g now assessments q g' :
  manage_patient_queue file g now assessments = Some (q, g') →
  Forall stamped assessments.
Proof.
  intros Hq.
  destruct (manage_patient_queue_inv _ _ _ _ _ _ Hq) as (L & HL & _).
  apply Forall2_flip in HL.
  eapply Forall2_Forall_right; [|exact HL]. by intros x a (? & _).
Qed.

(** The entries of a snapshot hold the stored assessments, refreshed. *)
Lemma manage_patient_queue_assessments file g now assessments q g' :
  manage_patient_queue file g now assessments = Some (q, g') →
  risk_assessment <$> q ≡ₚ refresh_assessment now <$> assessments.
Proof.
  intros Hq.
  destruct (manage_patient_queue_inv _ _ _ _ _ _ Hq) as (L & HL & HS & _).
  assert (E1 : risk_assessment <$> q
               = (risk_assessment ∘ snd) <$> sort_desc L).
  { symmetry. apply Forall2_fmap_eq.
    eapply Forall2_impl; [exact HS|]. intros x e (He & _).
    unfold compose. by rewrite He. }
  assert (E2 : (risk_assessment ∘ snd) <$> L
               = refresh_assessment now <$> assessments).
  { symmetry. apply Forall2_fmap_eq.
    eapply Forall2_impl; [exact HL|]. intros a x (_ & Hx & _).
    unfold compose. by rewrite Hx. }
  by rewrite E1, sort_desc_perm, E2.
Qed.

(** A scheduling pass over entries keeps their assessments, refreshed. *)
Lemma calculate_dynamic_priority_assessments m g now patients out m' g' :
  calculate_dynamic_priority m g now patients = Some (out, m', g') →
  ∃ sorted,
    out = assign_positions 0 sorted
    ∧ risk_assessment <$> sorted
      ≡ₚ (λ p, refresh_assessment now
                 (refresh_assessment now (risk_assessment p))) <$> patients.
Proof.
  unfold calculate_dynamic_priority, schedule_patients_with_rl.
  set (queue_info := mkQueueInfo _ _ _ _ _).
  destruct (rl_pass _ g now queue_info _) as [[[ps2 s1] g1]|] eqn:Hrl; [|done].
  simpl. intros [= <- _ _]. eexists. split; [done|].
  apply rl_pass_spec in Hrl.
  assert (E : (refresh_assessment now ∘ risk_assessment) <$> ps2
              = (λ p, refresh_assessment now
                        (refresh_assessment now (risk_assessment p)))
                <$> patients).
  { symmetry. apply Forall2_fmap_eq. rewrite Forall2_fmap_l in Hrl.
    eapply Forall2_impl; [exact Hrl|]. intros p p2 Hstep. simpl in *.
    by destruct (rl_step_assessment _ _ _ _ Hstep) as [-> _]. }
  assert (E' : risk_assessment <$> (snd <$> (get_final_priority now <$> ps2))
               = (refresh_assessment now ∘ risk_assessment) <$> ps2).
  { rewrite <- !list_fmap_compose. apply list_fmap_ext. intros i p _.
    simpl. by rewrite get_final_priority_snd. }
  unfold sort_by_final_priority.
  change (map snd ?l) with (snd <$> l).
  change (map (get_final_priority now) ps2)
    with (get_final_priority now <$> ps2).
  by rewrite sort_desc_perm, E', E.
Qed.

Lemma assign_positions_head i l e :
  head (assign_positions i l) = Some e →
  ∃ p, head l = Some p ∧ e = set_queue_position p (i + 1).
Proof. destruct l as [|p l]; simpl; [done|]. intros [= <-]. eauto. Qed.

(** Serving the next patient from a non-empty queue returns the entry at
    position 1 of a snapshot, taken from a stored assessment [a], and
    removes every stored assessment created at the instant of [a]. *)
Lemma get_next_patient_spec w now res w' :
  patient_assessments w ≠ [] →
  get_next_patient w now = Some (res, w') →
  ∃ a r,
    a ∈ patient_assessments w ∧ stamped a
    ∧ res = Ok r
    ∧ resp_timestamp r = timestamp a
    ∧ resp_queue_position r = 1
    ∧ patient_assessments w'
      = filter (λ b, timestamp b ≠ timestamp a)
               (refresh_assessment now <$> patient_assessments w).
Proof.
  intros Hne. unfold get_next_patient.
  destruct (patient_assessments w) as [|a0 l0] eqn:Ew; [done|].
  rewrite <- Ew. clear Hne.
  destruct (manage_patient_queue _ _ _ _) as [[cq g1]|] eqn:Hq; [|done].
  simpl. pose proof (manage_patient_queue_length _ _ _ _ _ _ Hq) as Hlen.
  pose proof (manage_patient_queue_stamped _ _ _ _ _ _ Hq) as Hst.
  pose proof (manage_patient_queue_assessments _ _ _ _ _ _ Hq) as Hcq.
  unfold pm_get_next_patient.
  destruct cq as [|p0 cq0] eqn:Ecq; [rewrite Ew in Hlen; done|].
  rewrite <- Ecq in *. clear Ecq.
  destruct (calculate_dynamic_priority _ g1 now cq) as [[[out m1] g2]|] eqn:Hcdp;
    [|done].
  simpl.
  destruct (calculate_dynamic_priority_assessments _ _ _ _ _ _ _ Hcdp)
    as (sorted & -> & Hperm).
  destruct (head (assign_positions 0 sorted)) as [next|] eqn:Hhead.
  2:{ apply Permutation_length in Hperm. rewrite !length_fmap in Hperm.
      destruct sorted; [|done]. simpl in Hperm. rewrite <- Hperm in Hlen.
      rewrite Ew in Hlen. done. }
  intros [= <- <-].
  apply assign_positions_head in Hhead as (p & Hp & ->).
  apply head_Some_elem_of in Hp.
  assert (Hin : risk_assessment p ∈ risk_assessment <$> sorted)
    by (by apply list_elem_of_fmap_2).
  rewrite Hperm in Hin. apply list_elem_of_fmap in Hin as (pc & Hpa & Hpc).
  assert (Hin : risk_assessment pc ∈ risk_assessment <$> cq)
    by (by apply list_elem_of_fmap_2).
  rewrite Hcq in Hin. apply list_elem_of_fmap in Hin as (a & Ha & Hain).
  assert (Hsa : stamped a) by (rewrite Forall_forall in Hst; auto).
  rewrite Ha, !refresh_idem in Hpa by (done || apply refresh_stamped).
  exists a. eexists. split; [done|]. split; [done|]. split; [done|].
  unfold queue_response.
  pose proof (get_final_priority_snd now (set_queue_position p (0 + 1))) as Hsnd.
  destruct (get_final_priority now _) as [k p1]. simpl in Hsnd. subst p1.
  simpl. rewrite Hpa, refresh_idem, refresh_timestamp by done.
  done.
Qed.

(** After a successful call no stored assessment has the creation instant
    of the entry returned. *)
Lemma get_next_patient_absent w now r w' :
  get_next_patient w now = Some (Ok r, w') →
  Forall (λ b, timestamp b ≠ resp_timestamp r) (patient_assessments w').
Proof.
  intros Hpop.
  destruct (decide (patient_assessments w = [])) as [E|Hne].
  { unfold get_next_patient in Hpop. by rewrite E in Hpop. }
  destruct (get_next_patient_spec _ _ _ _ Hne Hpop)
    as (a & r0 & _ & _ & [= <-] & Hts & _ & ->).
  apply Forall_forall. intros b Hb.
  apply list_elem_of_filter in Hb as [Hb _]. by rewrite Hts.
Qed.

Lemma filter_all {A : Type} (P : A → Prop) `{∀ x, Decision (P x)} (l : list A) :
  Forall P l → filter P l = l.
Proof.
  induction 1 as [|x l Hx _ IH]; [done|].
  by rewrite filter_cons_True, IH.
Qed.

Lemma filter_removes_one {A B : Type} `{EqDecision B} (f : A → B) l a :
  NoDup (f <$> l) → a ∈ l →
  (length (filter (λ b, f b ≠ f a) l) + 1 = length l)%nat.
Proof.
  induction l as [|x l IH]; intros Hnd Hin; [by apply elem_of_nil in Hin|].
  cbn [fmap list_fmap] in Hnd. apply NoDup_cons in Hnd as [Hx Hnd].
  apply elem_of_cons in Hin as [->|Hin].
  - rewrite filter_cons_False by (intros E; by apply E).
    rewrite filter_all; [simpl; lia|].
    apply Forall_forall. intros b Hb E. apply Hx. rewrite <- E.
    by apply list_elem_of_fmap_2.
  - rewrite filter_cons_True.
    + simpl. by rewrite <- (IH Hnd Hin).
    + intros E. apply Hx. rewrite E. by apply list_elem_of_fmap_2.
Qed.

(** When the stored assessments have pairwise distinct creation instants,
    exactly one of them is removed. *)
Lemma get_next_patient_removes_one w now r w' :
  NoDup (timestamp <$> patient_assessments w) →
  get_next_patient w now = Some (Ok r, w') →
  (length (patient_assessments w') + 1 = length (patient_assessments w))%nat.
Proof.
  intros Hnd Hpop.
  destruct (decide (patient_assessments w = [])) as [E|Hne].
  { unfold get_next_patient in Hpop. by rewrite E in Hpop. }
  destruct (get_next_patient_spec _ _ _ _ Hne Hpop)
    as (a & r0 & Hin & Hsa & _ & _ & _ & ->).
  assert (Hst : Forall stamped (patient_assessments w)).
  { unfold get_next_patient in Hpop.
    destruct (patient_assessments w) eqn:Ew; [done|]. rewrite <- Ew in *.
    destruct (manage_patient_queue _ _ _ _) as [[cq g1]|] eqn:Hq; [|done].
    by eapply manage_patient_queue_stamped. }
  assert (Hts : timestamp <$> (refresh_assessment now <$> patient_assessments w)
                = timestamp <$> patient_assessments w).
  { rewrite <- list_fmap_compose. apply list_fmap_ext. intros i b Hb. simpl.
    apply refresh_timestamp. rewrite Forall_lookup in Hst. by eapply Hst. }
  rewrite <- (length_fmap (refresh_assessment now) (patient_assessments w)).
  rewrite <- (refresh_timestamp now a Hsa).
  apply (filter_removes_one timestamp); [by rewrite Hts|].
  by apply list_elem_of_fmap_2.
Qed.

(** C3. With two patients admitted in the same microsecond the call
    returns the High one and leaves the stored queue empty: the Low patient
    is dropped without having been returned. *)
Theorem get_next_patient_drops_same_instant :
  ∃ r w',
    get_next_patient (mkWorld high_and_low_confident None quiet_rng) 600000000
    = Some (Ok r, w')
    ∧ resp_risk_level r = "High"%string
    ∧ resp_queue_position r = 1
    ∧ length high_and_low_confident = 2%nat
    ∧ patient_assessments w' = [].
Proof. eexists _, _. split; [vm_compute; reflexivity|]. done. Qed.

(* ------------------------------------------------------------------ *)
(** ** Feedback *)

Lemma update_with_outcome_spec m file now patient_id outcome :
  update_with_outcome m file now patient_id outcome
  = (mkPriorityManager (rl_scheduler m)
       (patient_history m ++ [mkHistoryEntry patient_id outcome now]),
     if Z.of_nat (length (patient_history m) + 1) mod 10 =? 0
     then Some (q_table (rl_scheduler m)) else file).
Proof.
  unfold update_with_outcome, provide_feedback, save_q_table.
  rewrite length_app. simpl. by destruct (_ =? 0).
Qed.

(** Against C4 as stated: the entry of a scheduled Low patient carries a
    state and an action, and a Q-learning update for them would change the
    table; recording feedback for that patient leaves the table as it
    was. *)
Lemma feedback_does_not_update_q_table :
  ∃ q g' e state action,
    manage_patient_queue None quiet_rng 0 one_low_patient = Some (q, g')
    ∧ e ∈ q
    ∧ rl_state e = Some state ∧ rl_action e = Some action
    ∧ (∃ s', update_q_value (new_scheduler None) state action
               (get_reward action e good_outcome) state = Some s'
             ∧ q_table s' ≠ q_table (new_scheduler None))
    ∧ q_table (rl_scheduler
                 (fst (update_with_outcome (new_priority_manager None) None 0
                         (patient_id e) good_outcome)))
      = q_table (new_scheduler None).
Proof.
  eexists _, _, _, _, _. split; [vm_compute; reflexivity|].
  split; [apply list_elem_of_here|].
  split; [reflexivity|]. split; [reflexivity|]. split; [|reflexivity].
  eexists. split; [vm_compute; reflexivity|].
  intros H. apply (f_equal (λ t, t !! "low_7_1_0_evening"%string)) in H.
  vm_compute in H. discriminate H.
Qed.

(** C4, amended. Recording feedback appends the record to the history of
    the manager and changes neither the scheduler nor its Q-table: no
    binding is read and no Q-learning update is issued.  Over a run of
    calls on one manager the Q-table is written to the file exactly when
    the length of the history passes a multiple of 10; the endpoint builds
    a new manager for every request, so through it the file is never
    written. *)
Theorem feedback_records_without_learning m file records w now patient_id
    wait satisfaction utilization :
  rl_scheduler (fst (record_all m file records)) = rl_scheduler m
  ∧ patient_history (fst (record_all m file records))
    = patient_history m
      ++ ((λ '(t, id, o), mkHistoryEntry id o t) <$> records)
  ∧ snd (record_all m file records)
    = (if decide (Z.of_nat (length (patient_history m)) / 10
                  < Z.of_nat (length (patient_history m) + length records) / 10)
       then Some (q_table (rl_scheduler m)) else file)
  ∧ q_table_file
      (snd (feedback_endpoint w now patient_id wait satisfaction utilization))
    = q_table_file w.
Proof.
  split_and!; [| | |reflexivity].
  - revert m file. induction records as [|[[t id] o] rest IH]; intros m file;
      [done|].
    simpl. rewrite update_with_outcome_spec. by rewrite IH.
  - revert m file. induction records as [|[[t id] o] rest IH]; intros m file.
    + simpl. by rewrite app_nil_r.
    + simpl. rewrite update_with_outcome_spec, IH. simpl.
      by rewrite <- app_assoc.
  - revert m file. induction records as [|[[t id] o] rest IH]; intros m file.
    + simpl. rewrite Nat.add_0_r. case_decide; [lia|done].
    + simpl. rewrite update_with_outcome_spec, IH. simpl.
      rewrite length_app. simpl.
      set (h := length (patient_history m)).
      replace (h + S (length rest))%nat with (h + 1 + length rest)%nat by lia.
      destruct (Z.eqb_spec (Z.of_nat (h + 1) mod 10) 0) as [E|E];
        repeat case_decide; try done; exfalso;
        rewrite ?Nat2Z.inj_add in *; change (Z.of_nat 1) with 1 in *;
        Z.div_mod_to_equations; lia.
Qed.

(* ------------------------------------------------------------------ *)
(** ** Q-learning *)





Lemma row_set_get action row q v :
  row_get action row = Some q → row_get action (row_set action v row) = Some v.
Proof.
  induction row as [|[k w] row IH]; simpl; [done|].
  destruct (String.eqb k action) eqn:E; simpl; rewrite E; [done|]. apply IH.
Qed.



Lemma ensure_state_unknown s state :
  q_table s !! state = None →
  q_table (ensure_state s state) !! state = Some zero_row.
Proof.
  intros H. unfold ensure_state. rewrite H. simpl. apply lookup_insert_eq.
Qed.





Lemma geometric_nonneg x n : (0 <= x → 0 <= geometric x n)%Q.
Proof.
  intros Hx. induction n as [|n IH]; simpl; [lra|].
  by apply Qmult_le_0_compat.
Qed.

Lemma geometric_le_1 x n : (0 <= x <= 1 → geometric x n <= 1)%Q.
Proof.
  intros [H0 H1]. induction n as [|n IH]; simpl; [lra|].
  pose proof (geometric_nonneg x n H0).
  assert (x * geometric x n <= 1 * geometric x n)%Q
    by (apply Qmult_le_compat_r; done).
  lra.
Qed.






(** The premise on the start matters: when another action of the state
    has a larger value, the update moves towards reward + γ × that value,
    and one step already passes reward / (1 − γ). *)
Lemma update_towards_dominant_action :
  ∃ s1,
    update_q_value scheduler_with_dominant_action "s" "immediate" 1 "s" = Some s1
    ∧ (q_value s1 "s" "immediate" == 951 # 10)%Q
    ∧ (fixed_point scheduler_with_dominant_action 1 == 20)%Q.
Proof. eexists. split; [vm_compute; reflexivity|]. by vm_compute. Qed.



(* ================================================================== *)
(** * Further properties of the code *)

(* ------------------------------------------------------------------ *)
(** ** models.py: the score *)

Lemma age_factor_range a :
  0 ≤ age (vital_signs a) → (1 <= 1 + age_factor_of a <= 5 # 2)%Q.
Proof.
  intros H. unfold age_factor_of.
  assert (0 <= inject_Z (age (vital_signs a)) / 80)%Q.
  { apply Qle_shift_div_l; [lra|].
    change (0 * 80)%Q with (inject_Z 0). by rewrite <- Zle_Qle. }
  assert (0 <= Qmin (inject_Z (age (vital_signs a)) / 80) (3 # 2))%Q
    by (apply Q.min_glb; lra).
  pose proof (Q.le_min_r (inject_Z (age (vital_signs a)) / 80) (3 # 2)).
  lra.
Qed.

Lemma time_urgency_lower now a :
  not_before_creation now a → (1 <= fst (_calculate_time_urgency now a))%Q.
Proof.
  intros H. pose proof (elapsed_minutes_nonneg now a H) as He.
  rewrite time_urgency_elapsed.
  rewrite <- (Qplus_0_r 1) at 1. apply Qplus_le_r.
  destruct (level_of _) as [[]|]; simpl; apply Qle_shift_div_l; lra.
Qed.

(** X1. With a non-negative confidence, a non-negative age and an instant
    not before the creation, the score lies between base × confidence ×
    time_urgency and five times that product: the age factor contributes at
    most 2.5 and the critical vitals at most 2. *)
Theorem score_between_plain_and_fivefold (a : RiskAssessment) (now : Z) :
  (0 <= confidence_score a)%Q →
  0 ≤ age (vital_signs a) →
  not_before_creation now a →
  (risk_weight (risk_level a) * confidence_score a
     * fst (_calculate_time_urgency now a)
   <= score_at now a
   <= 5 * (risk_weight (risk_level a) * confidence_score a
           * fst (_calculate_time_urgency now a)))%Q.
Proof.
  intros Hc Hage Hnow. rewrite score_at_unfold.
  pose proof (age_factor_range a Hage) as [HA1 HA2].
  pose proof (critical_factor_bounds a) as [HC0 HC1].
  pose proof (time_urgency_lower now a Hnow) as Hu.
  pose proof (risk_weight_nonneg (risk_level a)) as Hb.
  set (P := (risk_weight (risk_level a) * confidence_score a
             * fst (_calculate_time_urgency now a))%Q).
  assert (HP : (0 <= P)%Q).
  { unfold P. repeat apply Qmult_le_0_compat; lra. }
  set (A := (1 + age_factor_of a)%Q) in *.
  set (C := (1 + _calculate_critical_vitals_factor a)%Q).
  assert (HC : (1 <= C <= 2)%Q) by (unfold C; lra).
  assert (H1 : (P * 1 <= P * A)%Q).
  { rewrite !(Qmult_comm P). apply Qmult_le_compat_r; lra. }
  assert (H2 : (P * A <= P * (5 # 2))%Q).
  { rewrite !(Qmult_comm P). apply Qmult_le_compat_r; lra. }
  assert (HPA : (0 <= P * A)%Q) by lra.
  assert (H3 : ((P * A) * 1 <= (P * A) * C)%Q).
  { rewrite !(Qmult_comm (P * A)). apply Qmult_le_compat_r; lra. }
  assert (H4 : ((P * A) * C <= (P * A) * 2)%Q).
  { rewrite !(Qmult_comm (P * A)). apply Qmult_le_compat_r; lra. }
  lra.
Qed.

Lemma score_between_plain_and_fivefold_witness :
  (risk_weight "Medium" * (8 # 10)
     * fst (_calculate_time_urgency 1800000000
              (fresh_assessment "Medium" (calm_vitals 75) (8 # 10) 0))
   <= score_at 1800000000 (fresh_assessment "Medium" (calm_vitals 75) (8 # 10) 0)
   <= 5 * (risk_weight "Medium" * (8 # 10)
           * fst (_calculate_time_urgency 1800000000
                    (fresh_assessment "Medium" (calm_vitals 75) (8 # 10) 0))))%Q.
Proof.
  apply (score_between_plain_and_fivefold
           (fresh_assessment "Medium" (calm_vitals 75) (8 # 10) 0) 1800000000).
  - by vm_compute.
  - simpl. lia.
  - unfold not_before_creation. simpl. lia.
Defined.

Lemma score_relabel now a label :
  (score_at now (relabel a label)
   == (risk_weight label
       * (1 + elapsed_minutes now a
              / match level_of label with
                | Some r => Spec.divisor r
                | None => 120
                end))
      * (confidence_score a * (1 + age_factor_of a)
         * (1 + _calculate_critical_vitals_factor a)))%Q.
Proof.
  rewrite score_at_unfold, time_urgency_elapsed.
  change (elapsed_minutes now (relabel a label)) with (elapsed_minutes now a).
  change (age_factor_of (relabel a label)) with (age_factor_of a).
  change (_calculate_critical_vitals_factor (relabel a label))
    with (_calculate_critical_vitals_factor a).
  simpl. ring.
Qed.

Lemma other_factors_nonneg a :
  (0 <= confidence_score a)%Q → -80 ≤ age (vital_signs a) →
  (0 <= confidence_score a * (1 + age_factor_of a)
        * (1 + _calculate_critical_vitals_factor a))%Q.
Proof.
  intros Hc Hage. pose proof (age_factor_lower a Hage).
  pose proof (critical_factor_bounds a) as [? _].
  repeat apply Qmult_le_0_compat; lra.
Qed.

(** X2. At one instant not before the creation, with a non-negative
    confidence and an age not below -80, relabelling the same assessment
    never inverts the classes: a High label scores at least as much as a
    Medium one, and a Medium one at least as much as a Low or unrecognised
    one. *)
Theorem higher_class_never_scores_lower (a : RiskAssessment) (now : Z)
    (high medium other : string) :
  level_of high = Some Spec.High →
  level_of medium = Some Spec.Medium →
  level_of other = Some Spec.Low ∨ level_of other = None →
  (0 <= confidence_score a)%Q →
  -80 ≤ age (vital_signs a) →
  not_before_creation now a →
  (score_at now (relabel a other) <= score_at now (relabel a medium)
   <= score_at now (relabel a high))%Q.
Proof.
  intros Hh Hm Ho Hc Hage Hnow.
  pose proof (elapsed_minutes_nonneg now a Hnow) as He.
  pose proof (other_factors_nonneg a Hc Hage) as HK.
  rewrite !score_relabel, Hh, Hm.
  rewrite (risk_weight_level _ _ Hh), (risk_weight_level _ _ Hm).
  assert (Eo : (risk_weight other
                * (1 + elapsed_minutes now a
                       / match level_of other with
                         | Some r => Spec.divisor r
                         | None => 120
                         end)
                == 10 + elapsed_minutes now a * (1 # 12))%Q).
  { destruct Ho as [Ho|Ho]; rewrite Ho.
    - rewrite (risk_weight_level _ _ Ho). simpl. field.
    - rewrite (risk_weight_unknown _ Ho). field. }
  rewrite Eo. simpl.
  assert (Em : (50 * (1 + elapsed_minutes now a / 30)
                == 50 + elapsed_minutes now a * (5 # 3))%Q) by field.
  assert (Eh : (100 * (1 + elapsed_minutes now a / 10)
                == 100 + elapsed_minutes now a * 10)%Q) by field.
  rewrite Em, Eh.
  split; apply Qmult_le_compat_r; try done; lra.
Qed.

Lemma higher_class_never_scores_lower_witness :
  (score_at 600000000 (relabel (fresh_assessment "x" (calm_vitals 50) (8 # 10) 0) "low")
   <= score_at 600000000
        (relabel (fresh_assessment "x" (calm_vitals 50) (8 # 10) 0) "MEDIUM")
   <= score_at 600000000
        (relabel (fresh_assessment "x" (calm_vitals 50) (8 # 10) 0) "High"))%Q.
Proof.
  apply (higher_class_never_scores_lower
           (fresh_assessment "x" (calm_vitals 50) (8 # 10) 0) 600000000
           "High" "MEDIUM" "low").
  - reflexivity.
  - reflexivity.
  - by left.
  - by vm_compute.
  - simpl. lia.
  - unfold not_before_creation. simpl. lia.
Defined.

(** X3. Aging lets a Low entry overtake: once it has waited more than 1080
    minutes, its score exceeds that of a High assessment created at this
    very instant with the same positive confidence and the same vitals (age
    above -80). *)
Theorem long_waiting_low_overtakes_fresh_high (low high : RiskAssessment)
    (now : Z) :
  level_of (risk_level low) = Some Spec.Low →
  level_of (risk_level high) = Some Spec.High →
  timestamp high = Some now →
  confidence_score high = confidence_score low →
  vital_signs high = vital_signs low →
  (0 < confidence_score low)%Q →
  -80 < age (vital_signs low) →
  (1080 < elapsed_minutes now low)%Q →
  (score_at now high < score_at now low)%Q.
Proof.
  intros Hl Hh Ht Hc Hv Hc0 Hage He.
  rewrite (score_at_spec _ _ _ Hl), (score_at_spec _ _ _ Hh).
  unfold Spec.score, Spec.time_urgency. rewrite Hc, Hv.
  rewrite (elapsed_minutes_linear now high now Ht), Z.sub_diag. simpl.
  set (c := confidence_score low) in *.
  set (A := (1 + Spec.age_factor (age (vital_signs low)))%Q).
  set (C := (1 + Spec.critical_factor (vital_signs low))%Q).
  assert (HA : (0 < A)%Q).
  { unfold A, Spec.age_factor.
    assert (-1 < inject_Z (age (vital_signs low)) / 80)%Q.
    { apply Qlt_shift_div_l; [lra|].
      change (-1 * 80)%Q with (inject_Z (-80)). by rewrite <- Zlt_Qlt. }
    destruct (Q.min_spec (inject_Z (age (vital_signs low)) / 80) (3 # 2))
      as [[_ ->]|[_ ->]]; lra. }
  assert (HC : (0 < C)%Q).
  { unfold C. pose proof (critical_factor_bounds low) as [H0 _].
    rewrite critical_factor_refines in H0. lra. }
  assert (HK : (0 < c * A * C)%Q) by (repeat apply Qmult_lt_0_compat; done).
  assert (E1 : (100 * c * (1 + inject_Z 0 * (1 # 60000000) / 10) * A * C
                == (c * A * C) * 100)%Q) by (change (inject_Z 0) with 0%Q; field).
  assert (E2 : (10 * c * (1 + elapsed_minutes now low / 120) * A * C
                == (c * A * C) * (10 + elapsed_minutes now low * (1 # 12)))%Q)
    by field.
  rewrite E1, E2. rewrite !(Qmult_comm (c * A * C)).
  apply Qmult_lt_compat_r; [done|lra].
Qed.

Lemma long_waiting_low_overtakes_fresh_high_witness :
  (score_at 64800000001 (fresh_assessment "High" (calm_vitals 40) (8 # 10) 64800000001)
   < score_at 64800000001 (fresh_assessment "Low" (calm_vitals 40) (8 # 10) 0))%Q.
Proof.
  apply (long_waiting_low_overtakes_fresh_high
           (fresh_assessment "Low" (calm_vitals 40) (8 # 10) 0)
           (fresh_assessment "High" (calm_vitals 40) (8 # 10) 64800000001)
           64800000001).
  - reflexivity.
  - reflexivity.
  - reflexivity.
  - reflexivity.
  - reflexivity.
  - by vm_compute.
  - simpl. lia.
  - by vm_compute.
Defined.

(** X4. Scoring a stamped assessment stores the returned score in
    [priority_score], leaves the inputs of the score untouched, and scoring
    the result again at the same instant returns the same score and the
    same assessment. *)
Theorem rescoring_at_same_instant_changes_nothing (a : RiskAssessment) (now : Z) :
  stamped a →
  priority_score (snd (calculate_priority_score now a))
  = fst (calculate_priority_score now a)
  ∧ scoring_inputs (snd (calculate_priority_score now a)) = scoring_inputs a
  ∧ calculate_priority_score now (snd (calculate_priority_score now a))
    = calculate_priority_score now a.
Proof.
  intros Ha. fold (refresh_assessment now a). fold (score_at now a).
  split; [|split].
  - unfold refresh_assessment. rewrite calculate_priority_score_snd.
    by destruct (timestamp a).
  - by apply refresh_inputs.
  - rewrite (surjective_pairing (calculate_priority_score now a)).
    rewrite (surjective_pairing
               (calculate_priority_score now (refresh_assessment now a))).
    fold (refresh_assessment now a) (score_at now a).
    fold (refresh_assessment now (refresh_assessment now a)).
    fold (score_at now (refresh_assessment now a)).
    rewrite refresh_idem by done.
    by rewrite (score_at_inputs now _ a (refresh_inputs now a Ha)).
Qed.

Lemma rescoring_at_same_instant_changes_nothing_witness :
  priority_score
    (snd (calculate_priority_score 600000000
            (fresh_assessment "High" alarming_vitals (9 # 10) 0)))
  = fst (calculate_priority_score 600000000
           (fresh_assessment "High" alarming_vitals (9 # 10) 0))
  ∧ calculate_priority_score 600000000
      (snd (calculate_priority_score 600000000
              (fresh_assessment "High" alarming_vitals (9 # 10) 0)))
    = calculate_priority_score 600000000
        (fresh_assessment "High" alarming_vitals (9 # 10) 0).
Proof.
  destruct (rescoring_at_same_instant_changes_nothing
              (fresh_assessment "High" alarming_vitals (9 # 10) 0) 600000000)
    as (H1 & _ & H3).
  - done.
  - by split.
Defined.

(** X5. An assessment without timestamp is stamped by its first scoring:
    the call uses the urgency 1, stores the instant of the call as the
    timestamp, and every later scoring counts the elapsed time from that
    instant. *)
Theorem first_scoring_stamps_the_assessment (a : RiskAssessment) (now later : Z) :
  timestamp a = None →
  fst (_calculate_time_urgency now a) = 1%Q
  ∧ timestamp (snd (calculate_priority_score now a)) = Some now
  ∧ (elapsed_minutes later (snd (calculate_priority_score now a))
     == inject_Z (later - now) * (1 # 60000000))%Q.
Proof.
  intros Hnone.
  assert (Ht : timestamp (snd (calculate_priority_score now a)) = Some now).
  { rewrite calculate_priority_score_snd, Hnone. reflexivity. }
  split; [|split; [done|]].
  - unfold _calculate_time_urgency. by rewrite Hnone.
  - by apply elapsed_minutes_linear.
Qed.

Lemma first_scoring_stamps_the_assessment_witness :
  fst (_calculate_time_urgency 7
         (mkRiskAssessment "Low" (calm_vitals 30) (1 # 2) 0 None 1)) = 1%Q
  ∧ timestamp (snd (calculate_priority_score 7
         (mkRiskAssessment "Low" (calm_vitals 30) (1 # 2) 0 None 1))) = Some 7.
Proof.
  destruct (first_scoring_stamps_the_assessment
              (mkRiskAssessment "Low" (calm_vitals 30) (1 # 2) 0 None 1) 7 7
              eq_refl) as (H1 & H2 & _).
  by split.
Defined.

(** X6. [update_time_factor] stores the urgency of the instant of the call
    in [time_factor], and that field is never read back: the final priority
    of the entry at any instant is what it was before the call. *)
Theorem time_factor_never_enters_the_priority (p : PatientQueue) (now now' : Z) :
  stamped (risk_assessment p) →
  time_factor (risk_assessment (update_time_factor now p))
  = fst (_calculate_time_urgency now (risk_assessment p))
  ∧ final_priority now' (update_time_factor now p) = final_priority now' p.
Proof.
  intros Hst. unfold update_time_factor.
  pose proof (time_urgency_assessment now (risk_assessment p)) as Ha.
  destruct (_calculate_time_urgency now (risk_assessment p)) as [u a1].
  simpl in *. subst a1. unfold stamped in Hst.
  destruct (timestamp (risk_assessment p)) eqn:Et; [|done].
  split; [done|]. apply final_priority_inputs; [|done].
  simpl. unfold scoring_inputs. simpl. by rewrite Et.
Qed.

Lemma time_factor_never_enters_the_priority_witness :
  final_priority 1200000000
    (update_time_factor 600000000
       (fresh_entry (fresh_assessment "Low" (calm_vitals 30) (7 # 10) 0)))
  = final_priority 1200000000
      (fresh_entry (fresh_assessment "Low" (calm_vitals 30) (7 # 10) 0)).
Proof.
  destruct (time_factor_never_enters_the_priority
              (fresh_entry (fresh_assessment "Low" (calm_vitals 30) (7 # 10) 0))
              600000000 1200000000) as [_ H].
  - done.
  - exact H.
Defined.

(** X7. The critical-vitals factor is 0 exactly when none of the five
    indicators is triggered; otherwise it is at least 0.2; and it never
    exceeds 1. *)
Theorem critical_factor_zero_iff_no_indicator (a : RiskAssessment) :
  ((_calculate_critical_vitals_factor a == 0)%Q
   ↔ any_critical (vital_signs a) = false)
  ∧ ((_calculate_critical_vitals_factor a == 0)%Q
     ∨ (2 # 10 <= _calculate_critical_vitals_factor a)%Q)
  ∧ (_calculate_critical_vitals_factor a <= 1)%Q.
Proof.
  split; [|split; [|apply critical_factor_bounds]].
  - rewrite critical_factor_refines.
    unfold Spec.critical_factor, Spec.raw_critical_sum, any_critical.
    destruct (Spec.heart_rate_critical _), (Spec.blood_pressure_critical _),
      (Spec.oxygen_critical _), (Spec.temperature_critical _),
      (Spec.respiratory_critical _); simpl;
      (split; [intros H; try done; vm_compute in H; discriminate H
              |intros H; try done; reflexivity]).
  - rewrite critical_factor_refines.
    unfold Spec.critical_factor, Spec.raw_critical_sum.
    destruct (Spec.heart_rate_critical _), (Spec.blood_pressure_critical _),
      (Spec.oxygen_critical _), (Spec.temperature_critical _),
      (Spec.respiratory_critical _); simpl;
      first [left; reflexivity | right; by vm_compute].
Qed.

(* ------------------------------------------------------------------ *)
(** ** utils.py: wait times and snapshots *)

(** X8. For a rank that is not negative the wait-time estimate is not
    negative, and it never decreases when the rank grows, whatever the
    label. *)
Theorem wait_estimate_grows_with_rank (p : PatientQueue) (rank rank' : Z) :
  0 ≤ rank → rank ≤ rank' →
  0 ≤ calculate_estimated_wait_time p rank
    ≤ calculate_estimated_wait_time p rank'.
Proof.
  intros H0 Hle. unfold calculate_estimated_wait_time, base_time_per_patient.
  repeat case_match; nia.
Qed.

Lemma wait_estimate_grows_with_rank_witness :
  0 ≤ calculate_estimated_wait_time
        (fresh_entry (fresh_assessment "High" alarming_vitals (9 # 10) 0)) 0
    ≤ calculate_estimated_wait_time
        (fresh_entry (fresh_assessment "High" alarming_vitals (9 # 10) 0)) 4.
Proof.
  apply (wait_estimate_grows_with_rank
           (fresh_entry (fresh_assessment "High" alarming_vitals (9 # 10) 0)) 0 4);
    lia.
Defined.

(** X9. With a Q-table file without empty row, a snapshot is returned
    exactly when every stored assessment carries a timestamp; one
    assessment without timestamp makes the whole call fail. *)
Theorem snapshot_fails_exactly_on_missing_timestamp file g now
    (assessments : list RiskAssessment) :
  rows_nonempty (load_q_table file) →
  is_Some (manage_patient_queue file g now assessments)
  ↔ Forall stamped assessments.
Proof.
  intros Hrows. split.
  - intros [[q g'] Hq]. by eapply manage_patient_queue_stamped.
  - intros Hst.
    destruct (manage_patient_queue_Some file g now assessments Hst Hrows)
      as (q & g' & ->).
    by eexists.
Qed.

Lemma snapshot_fails_exactly_on_missing_timestamp_witness :
  is_Some (manage_patient_queue None quiet_rng 3000000 three_patients)
  ↔ Forall stamped three_patients.
Proof.
  apply (snapshot_fails_exactly_on_missing_timestamp None quiet_rng 3000000
           three_patients).
  apply rows_nonempty_no_file.
Defined.



(* ------------------------------------------------------------------ *)
(** ** rl_scheduler.py: choosing an action *)

Lemma row_get_None action (row : QRow) :
  row_get action row = None ↔ action ∉ row.*1.
Proof.
  induction row as [|[k v] row IH]; simpl.
  - split; [intros _; apply not_elem_of_nil|done].
  - destruct (String.eqb k action) eqn:E.
    + apply String.eqb_eq in E as ->. split; [done|].
      intros H. exfalso. apply H, list_elem_of_here.
    + apply String.eqb_neq in E. rewrite IH, not_elem_of_cons.
      split; [intros ?; split; [congruence|done]|by intros [_ ?]].
Qed.

Lemma row_set_keys action v (row : QRow) :
  action ∈ row.*1 → (row_set action v row).*1 = row.*1.
Proof.
  induction row as [|[k w] row IH]; simpl; [by intros ?%elem_of_nil|].
  destruct (String.eqb k action) eqn:E; [done|].
  apply String.eqb_neq in E. intros [?|Hin]%elem_of_cons; [done|].
  cbn [fmap list_fmap]. simpl. f_equal. by apply IH.
Qed.

Lemma row_get_set_other action other v (row : QRow) :
  other ≠ action → row_get other (row_set action v row) = row_get other row.
Proof.
  intros Hne. induction row as [|[k w] row IH]; simpl.
  - destruct (String.eqb action other) eqn:E; [|done].
    by apply String.eqb_eq in E.
  - destruct (String.eqb k action) eqn:E; simpl.
    + apply String.eqb_eq in E as ->.
      destruct (String.eqb action other) eqn:E'; [|done].
      by apply String.eqb_eq in E'.
    + by rewrite IH.
Qed.

(** The fold of [max(row, key=row.get)] stops on the first pair of maximal
    value. *)
Lemma argmax_fold (r : QRow) (l1 : QRow) (best : string * Q) (l2 : QRow) :
  Forall (λ kv, (snd kv < snd best)%Q) l1 →
  Forall (λ kv, (snd kv <= snd best)%Q) l2 →
  ∃ l1' l2',
    l1 ++ best :: l2 ++ r
    = l1' ++ fold_left (λ best cand,
                          if Qlt_le_dec (snd best) (snd cand) then cand else best)
                       r best :: l2'
    ∧ Forall (λ kv, (snd kv
                     < snd (fold_left
                              (λ best cand,
                                 if Qlt_le_dec (snd best) (snd cand)
                                 then cand else best) r best))%Q) l1'
    ∧ Forall (λ kv, (snd kv
                     <= snd (fold_left
                               (λ best cand,
                                  if Qlt_le_dec (snd best) (snd cand)
                                  then cand else best) r best))%Q) l2'.
Proof.
  revert l1 best l2. induction r as [|c r IH]; intros l1 best l2 H1 H2.
  - exists l1, l2. by rewrite app_nil_r.
  - cbn [fold_left]. destruct (Qlt_le_dec (snd best) (snd c)) as [Hlt|Hle].
    + destruct (IH (l1 ++ best :: l2) c []) as (l1' & l2' & E & ? & ?).
      * apply Forall_app. split.
        -- eapply Forall_impl; [exact H1|]. intros; simpl in *; lra.
        -- constructor; [done|].
           eapply Forall_impl; [exact H2|]. intros; simpl in *; lra.
      * constructor.
      * exists l1', l2'. split; [|done]. rewrite <- E. simpl.
        by rewrite <- !app_assoc.
    + destruct (IH l1 best (l2 ++ [c])) as (l1' & l2' & E & ? & ?); [done| |].
      * apply Forall_app. split; [done|]. by repeat constructor.
      * exists l1', l2'. split; [|done]. rewrite <- E.
        by rewrite <- !app_assoc.
Qed.

Lemma row_argmax_first_maximum (row : QRow) action :
  row_argmax row = Some action →
  ∃ l1 v l2,
    row = l1 ++ (action, v) :: l2
    ∧ Forall (λ kv, (snd kv < v)%Q) l1
    ∧ Forall (λ kv, (snd kv <= v)%Q) l2.
Proof.
  destruct row as [|kv r]; [done|]. simpl. intros [= <-].
  destruct (argmax_fold r [] kv []) as (l1 & l2 & E & H1 & H2);
    [constructor|constructor|].
  simpl in E, H1, H2. destruct (fold_left _ r kv) as [a v].
  by exists l1, v, l2.
Qed.

Lemma ensure_state_complete s state :
  table_complete (q_table s) → table_complete (q_table (ensure_state s state)).
Proof.
  intros H. unfold ensure_state. destruct (q_table s !! state) eqn:E; [done|].
  simpl. intros k row. rewrite lookup_insert. case_decide; [|by apply H].
  by intros [= <-].
Qed.

Lemma zero_row_get a : default 0%Q (row_get a zero_row) = 0%Q.
Proof.
  unfold zero_row. induction actions as [|k l IH]; [done|].
  cbn [map row_get]. by destruct (String.eqb k a).
Qed.

Lemma ensure_state_q_value s state st a :
  q_value (ensure_state s state) st a = q_value s st a.
Proof.
  unfold ensure_state, q_value. destruct (q_table s !! state) eqn:E; [done|].
  cbn [q_table set_q_table]. rewrite lookup_insert. case_decide as Hk; [|done].
  subst st. rewrite E. cbn [mbind option_bind]. apply zero_row_get.
Qed.

Lemma table_complete_rows t : table_complete t → rows_nonempty t.
Proof. intros H k row Hrow ->. by apply H in Hrow. Qed.

(** X11. On a table whose rows all hold the five actions, [choose_action]
    always returns one of the five actions; the only change it can make to
    the table is the row of zeros of a state it did not know, so the table
    keeps its shape and every value reads as before. *)
Theorem choose_action_selects_without_learning s g state :
  table_complete (q_table s) →
  ∃ action s1 g1,
    choose_action s g state = Some (action, s1, g1)
    ∧ action ∈ actions
    ∧ table_complete (q_table s1)
    ∧ is_Some (q_table s1 !! state)
    ∧ (∀ st a, q_value s1 st a = q_value s st a)
    ∧ epsilon s1 = epsilon s.
Proof.
  intros Hc. unfold choose_action.
  pose proof (ensure_state_complete s state Hc) as Hc1.
  destruct (np_random_random g) as [u g1].
  assert (Heps : epsilon (ensure_state s state) = epsilon s)
    by (unfold ensure_state; by destruct (q_table s !! state)).
  destruct (Qlt_le_dec u _).
  - unfold np_random_choice. eexists _, _, _. split; [done|].
    split; [|by eauto using ensure_state_lookup, ensure_state_q_value].
    apply list_elem_of_In, nth_In, Nat.mod_upper_bound. done.
  - destruct (ensure_state_lookup s state) as [row Hrow]. rewrite Hrow.
    pose proof (Hc1 _ _ Hrow) as Hkeys.
    destruct row as [|kv row]; [done|].
    destruct (row_argmax (kv :: row)) as [action|] eqn:Ea; [|done].
    eexists _, _, _. split; [done|].
    split; [|by eauto using ensure_state_q_value].
    destruct (row_argmax_first_maximum _ _ Ea) as (l1 & v & l2 & E & _).
    rewrite <- Hkeys, E, fmap_app. apply elem_of_app. right.
    apply list_elem_of_here.
Qed.

Lemma choose_action_selects_without_learning_witness :
  ∃ action s1 g1,
    choose_action (new_scheduler None) quiet_rng "low_7_3_1_evening"
    = Some (action, s1, g1)
    ∧ action ∈ actions
    ∧ table_complete (q_table s1).
Proof.
  destruct (choose_action_selects_without_learning (new_scheduler None)
              quiet_rng "low_7_3_1_evening")
    as (action & s1 & g1 & H1 & H2 & H3 & _).
  - intros k row. simpl. by rewrite lookup_empty.
  - by exists action, s1, g1.
Defined.

(** X12. When the draw is not below epsilon, the action returned is the
    first action of the row of the state whose value is maximal: every
    action before it has a strictly smaller value and none after it has a
    larger one; on a state the table did not know it is [immediate]. *)
Theorem greedy_choice_is_first_maximum s g state action s1 g1 :
  choose_action s g state = Some (action, s1, g1) →
  (epsilon s <= rand_tape g (rng_pos g))%Q →
  (∃ l1 v l2,
     q_table s1 !! state = Some (l1 ++ (action, v) :: l2)
     ∧ Forall (λ kv, (snd kv < v)%Q) l1
     ∧ Forall (λ kv, (snd kv <= v)%Q) l2)
  ∧ (q_table s !! state = None → action = "immediate"%string).
Proof.
  unfold choose_action, np_random_random. intros Hc Hdraw.
  assert (Heps : epsilon (ensure_state s state) = epsilon s)
    by (unfold ensure_state; by destruct (q_table s !! state)).
  destruct (Qlt_le_dec _ _) as [Hlt|_]; [rewrite Heps in Hlt; lra|].
  destruct (q_table (ensure_state s state) !! state) as [row|] eqn:Hrow; [|done].
  destruct (row_argmax row) as [a|] eqn:Ea; [|done].
  injection Hc as -> <- <-. split.
  - destruct (row_argmax_first_maximum _ _ Ea) as (l1 & v & l2 & -> & ? & ?).
    by exists l1, v, l2.
  - intros Hnone. rewrite (ensure_state_unknown _ _ Hnone) in Hrow.
    injection Hrow as <-. vm_compute in Ea. by injection Ea.
Qed.

Lemma greedy_choice_is_first_maximum_witness :
  ∃ l1 v l2,
    q_table (ensure_state scheduler_with_dominant_action "s") !! "s"%string
    = Some (l1 ++ ("delay_15"%string, v) :: l2)
    ∧ Forall (λ kv, (snd kv < v)%Q) l1
    ∧ Forall (λ kv, (snd kv <= v)%Q) l2.
Proof.
  destruct (greedy_choice_is_first_maximum scheduler_with_dominant_action
              quiet_rng "s" "delay_15"
              (ensure_state scheduler_with_dominant_action "s")
              (snd (np_random_random quiet_rng))) as [H _].
  - by vm_compute.
  - by vm_compute.
  - exact H.
Defined.

(* ------------------------------------------------------------------ *)
(** ** rl_scheduler.py: the update *)

Lemma ensure_state_max_q_value s state st :
  max_q_value (ensure_state s state) st = max_q_value s st.
Proof.
  unfold ensure_state, max_q_value. destruct (q_table s !! state) eqn:E; [done|].
  cbn [q_table set_q_table]. rewrite lookup_insert. case_decide as Hk; [|done].
  subst st. by rewrite E.
Qed.

Lemma ensure_state_fields s state :
  learning_rate (ensure_state s state) = learning_rate s
  ∧ discount_factor (ensure_state s state) = discount_factor s
  ∧ epsilon (ensure_state s state) = epsilon s
  ∧ epsilon_decay (ensure_state s state) = epsilon_decay s
  ∧ min_epsilon (ensure_state s state) = min_epsilon s.
Proof. unfold ensure_state. by destruct (q_table s !! state). Qed.

(** What a successful update computes, over the twice ensured table. *)
Lemma update_q_value_inv s state action reward next_state s' :
  update_q_value s state action reward next_state = Some s' →
  ∃ row,
    q_table (ensure_state (ensure_state s state) next_state) !! state = Some row
    ∧ row_get action row = Some (q_value s state action)
    ∧ s' = set_epsilon
             (set_q_table (ensure_state (ensure_state s state) next_state)
                (<[state := row_set action
                     (q_value s state action
                      + learning_rate s
                        * (reward + discount_factor s * max_q_value s next_state
                           - q_value s state action))%Q row]>
                   (q_table (ensure_state (ensure_state s state) next_state))))
             (Qmax (min_epsilon s) (epsilon s * epsilon_decay s)).
Proof.
  unfold update_q_value.
  set (s2 := ensure_state (ensure_state s state) next_state).
  assert (Hq : ∀ st a, q_value s2 st a = q_value s st a)
    by (intros; unfold s2; by rewrite !ensure_state_q_value).
  assert (Hm : max_q_value s2 next_state = max_q_value s next_state)
    by (unfold s2; by rewrite !ensure_state_max_q_value).
  destruct (ensure_state_fields (ensure_state s state) next_state)
    as (F1 & F2 & F3 & F4 & F5).
  destruct (ensure_state_fields s state) as (G1 & G2 & G3 & G4 & G5).
  fold s2 in F1, F2, F3, F4, F5.
  destruct (q_table s2 !! state) as [row|] eqn:Hrow; [|done]. simpl.
  destruct (row_get action row) as [current_q|] eqn:Hget; [|done]. simpl.
  destruct (q_table s2 !! next_state) as [next_row|] eqn:Hnext; [|done]. simpl.
  destruct (row_max_value next_row) as [m|] eqn:Hmax; [|done]. simpl.
  intros [= <-]. exists row.
  assert (Hcur : q_value s state action = current_q).
  { rewrite <- Hq. unfold q_value. rewrite Hrow. simpl. by rewrite Hget. }
  assert (Hmx : max_q_value s next_state = m).
  { rewrite <- Hm. unfold max_q_value. rewrite Hnext. simpl. by rewrite Hmax. }
  rewrite Hcur, Hmx. split; [done|]. split; [done|].
  unfold set_epsilon, set_q_table. simpl.
  by rewrite F1, F2, F3, F4, F5, G1, G2, G3, G4, G5.
Qed.

(** X13. A successful update writes the Q-learning value into Q(state,
    action), computed from the values read before the update (an unknown
    state or action reading as 0.0), and leaves every other value of the
    table, the learning rate and the discount as they were. *)
Theorem update_changes_one_value s state action reward next_state s' :
  update_q_value s state action reward next_state = Some s' →
  q_value s' state action
  = (q_value s state action
     + learning_rate s
       * (reward + discount_factor s * max_q_value s next_state
          - q_value s state action))%Q
  ∧ (∀ st a, (st, a) ≠ (state, action) → q_value s' st a = q_value s st a)
  ∧ learning_rate s' = learning_rate s
  ∧ discount_factor s' = discount_factor s.
Proof.
  intros Hup.
  destruct (update_q_value_inv _ _ _ _ _ _ Hup) as (row & Hrow & Hget & ->).
  destruct (ensure_state_fields (ensure_state s state) next_state)
    as (F1 & F2 & _).
  destruct (ensure_state_fields s state) as (G1 & G2 & _).
  split; [|split; [|by rewrite <- G1, <- G2, <- F1, <- F2]].
  - unfold q_value. simpl. rewrite lookup_insert_eq. simpl.
    by rewrite (row_set_get _ _ _ _ Hget).
  - intros st a Hne. unfold q_value at 1. simpl.
    rewrite lookup_insert. case_decide as Hst.
    + subst st. simpl. rewrite row_get_set_other by congruence.
      rewrite <- (ensure_state_q_value s state state a),
        <- (ensure_state_q_value _ next_state state a).
      unfold q_value. by rewrite Hrow.
    + rewrite <- (ensure_state_q_value s state st a),
        <- (ensure_state_q_value _ next_state st a). done.
Qed.

Lemma update_changes_one_value_witness :
  ∃ s',
    update_q_value scheduler_with_dominant_action "s" "immediate" 1 "t" = Some s'
    ∧ q_value s' "s" "immediate" = (0 + (1 # 10) * (1 + (95 # 100) * 0 - 0))%Q
    ∧ q_value s' "s" "delay_15" = 1000%Q.
Proof.
  eexists.
  assert (Hup : update_q_value scheduler_with_dominant_action "s" "immediate" 1 "t"
                = Some _) by (vm_compute; reflexivity).
  split; [exact Hup|].
  destruct (update_changes_one_value _ _ _ _ _ _ Hup) as (H1 & H2 & _).
  split; [exact H1|]. by rewrite H2.
Defined.

(** X14. On a table whose rows all hold the five actions, an update
    succeeds exactly when its action is one of the five, and it keeps the
    shape of the table; any other action is the [KeyError]. *)
Theorem update_succeeds_exactly_on_the_five_actions s state action reward
    next_state :
  table_complete (q_table s) →
  match update_q_value s state action reward next_state with
  | Some s' => action ∈ actions ∧ table_complete (q_table s')
  | None => action ∉ actions
  end.
Proof.
  intros Hc. unfold update_q_value.
  set (s2 := ensure_state (ensure_state s state) next_state).
  assert (Hc2 : table_complete (q_table s2))
    by (unfold s2; by do 2 apply ensure_state_complete).
  assert (Hrow : is_Some (q_table s2 !! state)).
  { unfold s2. destruct (ensure_state_lookup s state) as [row Hrow].
    unfold ensure_state at 1.
    destruct (q_table (ensure_state s state) !! next_state) eqn:E; [by eexists|].
    simpl. rewrite lookup_insert. case_decide; by eexists. }
  destruct Hrow as [row Hrow]. rewrite Hrow. simpl.
  pose proof (Hc2 _ _ Hrow) as Hkeys.
  destruct (row_get action row) as [current_q|] eqn:Hget; simpl.
  2:{ apply row_get_None in Hget. by rewrite <- Hkeys. }
  assert (Hin : action ∈ row.*1).
  { destruct (decide (action ∈ row.*1)) as [|Hn]; [done|].
    apply row_get_None in Hn. congruence. }
  destruct (ensure_state_lookup (ensure_state s state) next_state)
    as [next_row Hnext].
  fold s2 in Hnext. rewrite Hnext. simpl.
  pose proof (Hc2 _ _ Hnext) as Hnk.
  destruct next_row as [|[k v] next_row]; [done|]. simpl.
  split; [by rewrite <- Hkeys|].
  intros k' row'. rewrite lookup_insert. case_decide; [|by apply Hc2].
  intros [= <-]. by rewrite row_set_keys.
Qed.

Lemma update_succeeds_exactly_on_the_five_actions_witness :
  match update_q_value (new_scheduler None) "s" "delay_45" 1 "s" with
  | Some s' => "delay_45"%string ∈ actions ∧ table_complete (q_table s')
  | None => "delay_45"%string ∉ actions
  end.
Proof.
  apply (update_succeeds_exactly_on_the_five_actions (new_scheduler None)
           "s" "delay_45" 1 "s").
  intros k row. simpl. by rewrite lookup_empty.
Defined.

Lemma update_q_value_epsilon s state action reward next_state s' :
  update_q_value s state action reward next_state = Some s' →
  epsilon s' = Qmax (min_epsilon s) (epsilon s * epsilon_decay s)
  ∧ min_epsilon s' = min_epsilon s
  ∧ epsilon_decay s' = epsilon_decay s.
Proof.
  intros Hup.
  destruct (update_q_value_inv _ _ _ _ _ _ Hup) as (row & _ & _ & ->).
  destruct (ensure_state_fields (ensure_state s state) next_state)
    as (_ & _ & _ & F4 & F5).
  destruct (ensure_state_fields s state) as (_ & _ & _ & G4 & G5).
  simpl. by rewrite F4, F5, G4, G5.
Qed.

Lemma Qmax_absorb (m x g : Q) :
  (0 <= m → 0 <= g <= 1 → Qmax m (Qmax m x * g) == Qmax m (x * g))%Q.
Proof.
  intros Hm [Hg0 Hg1].
  assert (Hmg : (m * g <= m * 1)%Q).
  { rewrite !(Qmult_comm m). apply Qmult_le_compat_r; done. }
  destruct (Q.max_spec m x) as [[Hlt ->]|[Hle ->]]; [done|].
  assert (Hxg : (x * g <= m * g)%Q) by (apply Qmult_le_compat_r; done).
  rewrite !Q.max_l; [done|lra|lra].
Qed.

(** X15. Every update decays the exploration rate: after n successful
    updates epsilon is max(min_epsilon, epsilon × decay^n), so it never
    rises and never falls below its floor (for a floor that is not negative
    and not above the starting epsilon, and a decay in [0,1]). *)
Theorem exploration_rate_decays_to_its_floor n s state action reward s_n :
  repeat_update n s state action reward = Some s_n →
  (0 <= min_epsilon s <= epsilon s)%Q →
  (0 <= epsilon_decay s <= 1)%Q →
  (epsilon s_n
   == Qmax (min_epsilon s) (epsilon s * geometric (epsilon_decay s) n))%Q
  ∧ (min_epsilon s <= epsilon s_n <= epsilon s)%Q.
Proof.
  intros Hrep [Hm He] Hd.
  assert (Hclosed : (epsilon s_n
                     == Qmax (min_epsilon s)
                             (epsilon s * geometric (epsilon_decay s) n))%Q).
  { revert s Hrep Hm He Hd.
    induction n as [|n IH]; intros s Hrep Hm He Hd.
    - injection Hrep as <-. cbn [geometric]. rewrite Qmult_1_r.
      by rewrite Q.max_r.
    - cbn [repeat_update] in Hrep.
      destruct (update_q_value s state action reward state) as [s1|] eqn:Hup;
        [|done].
      cbn [mbind option_bind] in Hrep.
      destruct (update_q_value_epsilon _ _ _ _ _ _ Hup) as (E1 & E2 & E3).
      specialize (IH s1 Hrep). rewrite E1, E2, E3 in IH.
      specialize (IH Hm (Q.le_max_l _ _) Hd). rewrite IH.
      cbn [geometric].
      rewrite Qmax_absorb.
      + apply Q.max_compat; [done|ring].
      + done.
      + split; [apply geometric_nonneg, Hd|apply geometric_le_1, Hd]. }
  split; [done|]. rewrite Hclosed.
  pose proof (geometric_nonneg _ n (proj1 Hd)) as Hg0.
  pose proof (geometric_le_1 _ n Hd) as Hg1.
  assert (epsilon s * geometric (epsilon_decay s) n <= epsilon s * 1)%Q.
  { rewrite !(Qmult_comm (epsilon s)). apply Qmult_le_compat_r; lra. }
  split; [apply Q.le_max_l|apply Q.max_lub; lra].
Qed.

Lemma exploration_rate_decays_to_its_floor_witness :
  ∃ s_n,
    repeat_update 2 (new_scheduler None) "s" "immediate" 1 = Some s_n
    ∧ (epsilon s_n
       == Qmax (min_epsilon (new_scheduler None))
            (epsilon (new_scheduler None)
             * geometric (epsilon_decay (new_scheduler None)) 2))%Q
    ∧ (min_epsilon (new_scheduler None) <= epsilon s_n
       <= epsilon (new_scheduler None))%Q.
Proof.
  destruct (repeat_update 2 (new_scheduler None) "s" "immediate" 1)
    as [s_n|] eqn:E; [|by vm_compute in E].
  exists s_n. split; [done|].
  apply (exploration_rate_decays_to_its_floor 2 (new_scheduler None)
           "s" "immediate" 1 s_n E).
  - by vm_compute.
  - by vm_compute.
Defined.

(** X16. With satisfaction and utilisation in [0,1] (the defaults 0.5 are)
    the reward lies between -12 and 18, whatever the wait, the action and
    the patient; and for a patient who is not Low risk the reward does not
    depend on the action at all. *)
Theorem reward_between_minus_12_and_18 action patient outcome :
  (0 <= default (1 # 2) (satisfaction_score outcome) <= 1)%Q →
  (0 <= default (1 # 2) (resource_utilization outcome) <= 1)%Q →
  (-12 <= get_reward action patient outcome <= 18)%Q
  ∧ (Py.lower (risk_level (risk_assessment patient)) ≠ "low"%string →
     ∀ action',
       get_reward action' patient outcome = get_reward action patient outcome).
Proof.
  intros Hs Hu. unfold get_reward. cbv zeta.
  set (sat := default (1 # 2)%Q (satisfaction_score outcome)) in *.
  set (util := default (1 # 2)%Q (resource_utilization outcome)) in *.
  set (wait := default 0 (actual_wait_time outcome)).
  split.
  - destruct (String.eqb (Py.lower _) "low");
      destruct (String.eqb action "delay_30" || String.eqb action "delay_60");
      destruct (String.eqb action "immediate");
      destruct (Qlt_le_dec (7 # 10) sat);
      destruct (Qlt_le_dec util (3 # 10));
      destruct (120 <? wait); destruct (60 <? wait); destruct (30 <? wait);
      cbn [andb]; lra.
  - intros Hl action'.
    destruct (String.eqb_spec (Py.lower (risk_level (risk_assessment patient)))
                "low"); done.
Qed.

Lemma reward_between_minus_12_and_18_witness :
  (-12
   <= get_reward "immediate"
        (fresh_entry (fresh_assessment "Medium" alarming_vitals (7 # 10) 0))
        good_outcome
   <= 18)%Q
  ∧ (Py.lower
       (risk_level
          (risk_assessment
             (fresh_entry
                (fresh_assessment "Medium" alarming_vitals (7 # 10) 0))))
     ≠ "low"%string →
     ∀ action',
       get_reward action'
         (fresh_entry (fresh_assessment "Medium" alarming_vitals (7 # 10) 0))
         good_outcome
       = get_reward "immediate"
           (fresh_entry (fresh_assessment "Medium" alarming_vitals (7 # 10) 0))
           good_outcome).
Proof.
  apply (reward_between_minus_12_and_18 "immediate"
           (fresh_entry (fresh_assessment "Medium" alarming_vitals (7 # 10) 0))
           good_outcome);
    by vm_compute.
Defined.

(* ------------------------------------------------------------------ *)
(** ** main.py: the endpoints *)

Lemma calculate_dynamic_priority_Some m g now patients :
  rows_nonempty (q_table (rl_scheduler m)) →
  ∃ out m' g', calculate_dynamic_priority m g now patients = Some (out, m', g').
Proof.
  intros Hrows. unfold calculate_dynamic_priority, schedule_patients_with_rl.
  set (queue_info := mkQueueInfo _ _ _ _ _).
  destruct (rl_pass_Some (rl_scheduler m) g now queue_info
              (map (refresh_score now) patients) Hrows) as (out & s' & g' & ->).
  simpl. eauto.
Qed.

Lemma get_next_patient_Some w now :
  Forall stamped (patient_assessments w) →
  rows_nonempty (load_q_table (q_table_file w)) →
  ∃ res w',
    get_next_patient w now = Some (res, w')
    ∧ q_table_file w' = q_table_file w.
Proof.
  intros Hst Hrows.
  destruct (manage_patient_queue_Some (q_table_file w) (np_random w) now _
              Hst Hrows) as (cq & g1 & Hq).
  pose proof (manage_patient_queue_length _ _ _ _ _ _ Hq) as Hlen.
  unfold get_next_patient.
  destruct (patient_assessments w) as [|a0 l0] eqn:Ew; [by eexists _, _|].
  rewrite Hq. simpl. unfold pm_get_next_patient.
  destruct cq as [|p0 cq0] eqn:Ecq; [done|].
  rewrite <- Ecq.
  destruct (calculate_dynamic_priority_Some
              (new_priority_manager (q_table_file w)) g1 now cq Hrows)
    as (out & m' & g2 & ->).
  simpl. destruct (head out); by eexists _, _.
Qed.

(** X17. With stamped assessments and a Q-table file without empty row,
    [GET /queue/next/] always answers: 404 [No patients in queue] and an
    unchanged store when nothing is stored, otherwise the entry at position
    1, taken from a stored assessment, and a strictly shorter store.  The
    answer [No patients available] never occurs and the Q-table file is
    never written. *)
Theorem next_patient_is_served_or_queue_is_empty w now :
  Forall stamped (patient_assessments w) →
  rows_nonempty (load_q_table (q_table_file w)) →
  ∃ res w',
    get_next_patient w now = Some (res, w')
    ∧ q_table_file w' = q_table_file w
    ∧ match res with
      | HTTPException status_code detail =>
          patient_assessments w = [] ∧ status_code = 404
          ∧ detail = "No patients in queue"%string ∧ w' = w
      | Ok r =>
          resp_queue_position r = 1
          ∧ (∃ a, a ∈ patient_assessments w ∧ resp_timestamp r = timestamp a)
          ∧ (length (patient_assessments w')
             < length (patient_assessments w))%nat
      end.
Proof.
  intros Hst Hrows.
  destruct (get_next_patient_Some w now Hst Hrows) as (res & w' & Hpop & Hfile).
  exists res, w'. split; [done|]. split; [done|].
  destruct (decide (patient_assessments w = [])) as [E|Hne].
  - unfold get_next_patient in Hpop. rewrite E in Hpop.
    by injection Hpop as <- <-.
  - destruct (get_next_patient_spec _ _ _ _ Hne Hpop)
      as (a & r & Hin & Hsa & -> & Hts & Hpos & Hw').
    split; [done|]. split; [by exists a|].
    rewrite Hw'.
    eapply Nat.lt_le_trans;
      [eapply (length_filter_lt _ _ (refresh_assessment now a))|].
    + by apply list_elem_of_fmap_2.
    + intros Hneq. apply Hneq. by apply refresh_timestamp.
    + by rewrite length_fmap.
Qed.

Lemma next_patient_is_served_or_queue_is_empty_witness :
  ∃ res w',
    get_next_patient (mkWorld three_patients None quiet_rng) 3000000
    = Some (res, w')
    ∧ q_table_file w' = None
    ∧ match res with
      | HTTPException status_code detail =>
          three_patients = [] ∧ status_code = 404
          ∧ detail = "No patients in queue"%string
          ∧ w' = mkWorld three_patients None quiet_rng
      | Ok r =>
          resp_queue_position r = 1
          ∧ (∃ a, a ∈ three_patients ∧ resp_timestamp r = timestamp a)
          ∧ (length (patient_assessments w') < length three_patients)%nat
      end.
Proof.
  apply (next_patient_is_served_or_queue_is_empty
           (mkWorld three_patients None quiet_rng) 3000000).
  - repeat constructor; done.
  - apply rows_nonempty_no_file.
Defined.

Lemma low_adjustment_value p :
  low_adjustment p
  = if String.eqb (Py.lower (risk_level (risk_assessment p))) "low"
    then rl_adjustment p else 0%Q.
Proof.
  unfold low_adjustment, level_of.
  destruct (String.eqb_spec (Py.lower (risk_level (risk_assessment p))) "high")
    as [E1|_];
    destruct (String.eqb_spec (Py.lower (risk_level (risk_assessment p)))
                "medium") as [E2|_];
    destruct (String.eqb_spec (Py.lower (risk_level (risk_assessment p))) "low")
      as [E3|_]; try done; by rewrite E3 in *.
Qed.

(** The keys a scheduling pass sorts by: each is the final priority of its
    entry, and the adjustment that enters it is at least the least one of
    the label. *)
Lemma calculate_dynamic_priority_keys m g now patients out m' g' :
  calculate_dynamic_priority m g now patients = Some (out, m', g') →
  ∃ L,
    Forall2 (λ p x,
               risk_assessment (snd x)
               = refresh_assessment now
                   (refresh_assessment now (risk_assessment p))
               ∧ fst x = final_priority now (snd x)
               ∧ (least_adjustment (risk_assessment p)
                  <= low_adjustment (snd x))%Q) patients L
    ∧ Forall2 (λ x e, same_ranking (snd x) e) (sort_desc L) out.
Proof.
  unfold calculate_dynamic_priority, schedule_patients_with_rl,
    sort_by_final_priority.
  set (queue_info := mkQueueInfo _ _ _ _ _).
  destruct (rl_pass _ g now queue_info _) as [[[ps2 s1] g1]|] eqn:Hrl; [|done].
  simpl. intros [= <- _ _].
  exists (get_final_priority now <$> ps2). split.
  - apply rl_pass_spec in Hrl. rewrite Forall2_fmap_l in Hrl.
    apply Forall2_fmap_r. eapply Forall2_impl; [exact Hrl|].
    intros p p2 Hstep. simpl in Hstep.
    destruct (rl_step_assessment _ _ _ _ Hstep) as [Hra _].
    simpl in Hra. fold (refresh_assessment now (risk_assessment p)) in Hra.
    unfold compose. cbv beta. rewrite get_final_priority_snd. simpl.
    rewrite Hra. split; [done|]. split.
    + fold (final_priority now p2). apply final_priority_inputs; simpl; [|done].
      rewrite Hra. symmetry. apply refresh_inputs, refresh_stamped.
    + rewrite low_adjustment_value. simpl. unfold least_adjustment.
      rewrite !refresh_risk_level.
      unfold rl_step in Hstep. simpl in Hstep.
      fold (refresh_assessment now (risk_assessment p)) in Hstep.
      rewrite refresh_risk_level in Hstep.
      destruct (String.eqb (Py.lower (risk_level (risk_assessment p))) "low");
        [|apply Qle_refl].
      destruct Hstep as [action ->]. simpl.
      apply action_effect_boost_bounds.
  - apply (Forall2_fmap_l snd same_ranking), assign_positions_spec.
Qed.

(** The first pair of a sorted list holds a largest key. *)
Lemma sort_desc_head_largest {A : Type} (L : list (Q * A)) x0 rest x :
  sort_desc L = x0 :: rest → x ∈ L → (fst x <= fst x0)%Q.
Proof.
  intros Hs Hx.
  pose proof (sort_desc_sorted (λ _ _, True) L (StronglySorted_trivial L)) as H.
  rewrite Hs in H. apply StronglySorted_inv in H as [_ Hall].
  rewrite <- (sort_desc_perm L), Hs in Hx.
  apply elem_of_cons in Hx as [->|Hx]; [apply Qle_refl|].
  rewrite Forall_forall in Hall. destruct (Hall x Hx) as [?|[? _]]; lra.
Qed.

(** X18. The patient served has the highest claim: the priority returned
    by [GET /queue/next/] is at least the score every stored assessment
    has at that instant, less 8 for a Low one (the largest reduction the
    scheduler can apply).  No stored High or Medium patient with a higher
    score is passed over. *)
Theorem served_patient_has_the_highest_claim w now r w' :
  get_next_patient w now = Some (Ok r, w') →
  ∀ b, b ∈ patient_assessments w →
       (score_at now b + least_adjustment b <= resp_priority_score r)%Q.
Proof.
  intros Hpop b Hb. unfold get_next_patient in Hpop.
  destruct (patient_assessments w) as [|a0 l0] eqn:Ew; [done|].
  rewrite <- Ew in *. clear Ew a0 l0.
  destruct (manage_patient_queue _ _ _ _) as [[cq g1]|] eqn:Hq; [|done].
  simpl in Hpop.
  pose proof (manage_patient_queue_stamped _ _ _ _ _ _ Hq) as Hst.
  pose proof (manage_patient_queue_assessments _ _ _ _ _ _ Hq) as Hcq.
  unfold pm_get_next_patient in Hpop.
  destruct cq as [|p0 cq0] eqn:Ecq; [done|]. rewrite <- Ecq in *. clear Ecq.
  destruct (calculate_dynamic_priority _ g1 now cq) as [[[out m1] g2]|] eqn:Hcdp;
    [|done].
  simpl in Hpop.
  destruct (calculate_dynamic_priority_keys _ _ _ _ _ _ _ Hcdp) as (L & HL & HS).
  destruct out as [|next out']; [done|]. simpl in Hpop.
  injection Hpop as <- _.
  destruct (sort_desc L) as [|x0 rest] eqn:Hsort; [by inversion HS|].
  apply Forall2_cons_1 in HS as [Hnext _].
  assert (Hsb : stamped b) by (rewrite Forall_forall in Hst; auto).
  (* the entry of [b] in the second pass *)
  assert (Hin : refresh_assessment now b ∈ risk_assessment <$> cq).
  { rewrite Hcq. by apply list_elem_of_fmap_2. }
  apply list_elem_of_fmap in Hin as (pc & Hpc & Hpcin).
  apply list_elem_of_lookup in Hpcin as [i Hi].
  destruct (Forall2_lookup_l _ _ _ _ _ HL Hi) as (x & Hx & Hra & Hkey & Hadj).
  apply list_elem_of_lookup_2 in Hx.
  pose proof (sort_desc_head_largest L x0 rest x Hsort Hx) as Hle.
  (* the key of the head is the priority returned *)
  assert (Hkey0 : fst x0 = final_priority now (snd x0)).
  { assert (Hx0 : x0 ∈ L)
      by (rewrite <- (sort_desc_perm L), Hsort; apply list_elem_of_here).
    apply (Forall2_Forall_right _ (λ x, fst x = final_priority now (snd x)))
      in HL; [|by intros ?? (_ & ? & _)].
    rewrite Forall_forall in HL. auto. }
  destruct (queue_response_fields now next) as (-> & _).
  rewrite (same_ranking_final_priority now _ _ Hnext), <- Hkey0.
  (* the key of [b] *)
  pose proof (final_priority_low_adjustment now (snd x)) as Hfp.
  rewrite <- Hkey in Hfp.
  assert (Hsc : score_at now (risk_assessment (snd x)) = score_at now b).
  { apply score_at_inputs. rewrite Hra, <- Hpc.
    rewrite !refresh_inputs by (done || apply refresh_stamped). done. }
  rewrite Hsc in Hfp.
  assert (Hl : least_adjustment (risk_assessment pc) = least_adjustment b).
  { unfold least_adjustment. by rewrite <- Hpc, refresh_risk_level. }
  rewrite Hl in Hadj. lra.
Qed.

Lemma served_patient_has_the_highest_claim_witness :
  ∃ r w',
    get_next_patient (mkWorld three_patients None quiet_rng) 3000000
    = Some (Ok r, w')
    ∧ ∀ b, b ∈ three_patients →
           (score_at 3000000 b + least_adjustment b
            <= resp_priority_score r)%Q.
Proof.
  eexists _, _.
  assert (Hpop : get_next_patient (mkWorld three_patients None quiet_rng)
                   3000000 = Some (Ok _, _)) by (vm_compute; reflexivity).
  split; [exact Hpop|].
  exact (served_patient_has_the_highest_claim _ _ _ _ Hpop).
Defined.









Lemma predict_Some w now vitals label confidence :
  Forall stamped (patient_assessments w) →
  rows_nonempty (load_q_table (q_table_file w)) →
  ∃ cq g1,
    manage_patient_queue (q_table_file w) (np_random w) now
      (patient_assessments w
       ++ [create_risk_assessment_with_priority now vitals label confidence])
    = Some (cq, g1)
    ∧ predict_risk_with_priority w now vitals label confidence
      = Some (mkRiskPredictionResponse label confidence
                (priority_score
                   (create_risk_assessment_with_priority now vitals label
                      confidence))
                (find_wait_by_timestamp now cq) (Some now) vitals,
              mkWorld
                ((refresh_assessment now <$> patient_assessments w)
                 ++ [create_risk_assessment_with_priority now vitals label
                       confidence])
                (q_table_file w) g1).
Proof.
  intros Hst Hrows.
  set (new := create_risk_assessment_with_priority now vitals label confidence).
  assert (Hnew : stamped new) by apply refresh_stamped.
  destruct (manage_patient_queue_Some (q_table_file w) (np_random w) now
              (patient_assessments w ++ [new])) as (cq & g1 & Hq);
    [by apply Forall_app; split; [|constructor]|done|].
  exists cq, g1. split; [done|].
  unfold predict_risk_with_priority. fold new. rewrite Hq. simpl.
  do 3 f_equal.
  change (map (refresh_assessment now) ?l) with (refresh_assessment now <$> l).
  rewrite fmap_app. simpl. f_equal. f_equal.
  unfold new, create_risk_assessment_with_priority. by apply refresh_idem.
Qed.



Lemma calculate_estimated_wait_time_first p :
  calculate_estimated_wait_time p 0 = 0.
Proof.
  unfold calculate_estimated_wait_time. by case_match.
Qed.

(** X21. [DELETE /queue/clear/] reports the number of stored assessments
    and starts the queue over: right after it the next-patient call
    answers 404, the queue and the update of the priorities report no
    patient, and the first patient admitted is alone in the store and is
    told a wait of 0 minutes, whatever the label. *)
Theorem cleared_queue_starts_over w now vitals label confidence :
  rows_nonempty (load_q_table (q_table_file w)) →
  fst (clear_queue w) = Z.of_nat (length (patient_assessments w))
  ∧ get_next_patient (snd (clear_queue w)) now
    = Some (HTTPException 404 "No patients in queue", snd (clear_queue w))
  ∧ get_patient_queue (snd (clear_queue w)) now
    = Some ([], snd (clear_queue w))
  ∧ update_queue_priorities (snd (clear_queue w)) now
    = Some (NoPatients "No patients in queue", snd (clear_queue w))
  ∧ ∃ r w',
      predict_risk_with_priority (snd (clear_queue w)) now vitals label
        confidence = Some (r, w')
      ∧ pred_estimated_wait_time r = 0
      ∧ patient_assessments w'
        = [create_risk_assessment_with_priority now vitals label confidence].
Proof.
  intros Hrows. split_and!; try done.
  destruct (predict_Some (snd (clear_queue w)) now vitals label confidence)
    as (cq & g1 & Hq & ->); [constructor|done|].
  eexists _, _. split; [done|]. split; [|done]. simpl in *.
  pose proof (manage_patient_queue_length _ _ _ _ _ _ Hq) as Hlen.
  destruct cq as [|e [|??]]; try done. simpl.
  assert (He : estimated_wait_time e = 0).
  { destruct (manage_patient_queue_inv _ _ _ _ _ _ Hq) as (_ & _ & _ & _ & Hw).
    apply Forall_inv in Hw. rewrite Hw.
    rewrite (snapshot_position _ _ _ _ _ _ 0 e Hq eq_refl).
    apply calculate_estimated_wait_time_first. }
  destruct (timestamp (risk_assessment e)); [|done]. by case_match.
Qed.

Lemma cleared_queue_starts_over_witness :
  fst (clear_queue (mkWorld three_patients None quiet_rng)) = 3
  ∧ get_next_patient (snd (clear_queue (mkWorld three_patients None quiet_rng)))
      3000000
    = Some (HTTPException 404 "No patients in queue",
            snd (clear_queue (mkWorld three_patients None quiet_rng)))
  ∧ get_patient_queue (snd (clear_queue (mkWorld three_patients None quiet_rng)))
      3000000
    = Some ([], snd (clear_queue (mkWorld three_patients None quiet_rng)))
  ∧ update_queue_priorities
      (snd (clear_queue (mkWorld three_patients None quiet_rng))) 3000000
    = Some (NoPatients "No patients in queue",
            snd (clear_queue (mkWorld three_patients None quiet_rng)))
  ∧ ∃ r w',
      predict_risk_with_priority
        (snd (clear_queue (mkWorld three_patients None quiet_rng))) 3000000
        alarming_vitals "Low" (9 # 10) = Some (r, w')
      ∧ pred_estimated_wait_time r = 0
      ∧ patient_assessments w'
        = [create_risk_assessment_with_priority 3000000 alarming_vitals "Low"
             (9 # 10)].
Proof.
  apply (cleared_queue_starts_over (mkWorld three_patients None quiet_rng)
           3000000 alarming_vitals "Low" (9 # 10)).
  apply rows_nonempty_no_file.
Defined.

Lemma count_level_assessments level q :
  count_level level q = labelled level (risk_assessment <$> q).
Proof.
  unfold count_level, labelled. f_equal.
  induction q as [|p q IH]; [done|].
  cbn [fmap list_fmap]. rewrite !filter_cons.
  destruct (decide (String.eqb (Py.lower (risk_level (risk_assessment p)))
                      level = true)); simpl; by rewrite IH.
Qed.

Lemma labelled_refresh now level l :
  labelled level (refresh_assessment now <$> l) = labelled level l.
Proof.
  unfold labelled. f_equal.
  induction l as [|a l IH]; [done|].
  cbn [fmap list_fmap]. rewrite !filter_cons, refresh_risk_level.
  destruct (decide (String.eqb (Py.lower (risk_level a)) level = true));
    simpl; by rewrite IH.
Qed.

Lemma labelled_perm level l l' :
  l ≡ₚ l' → labelled level l = labelled level l'.
Proof. intros H. unfold labelled. by rewrite H. Qed.

(** The three counts are disjoint: they add up to the number of
    assessments with a recognised label. *)
Lemma labelled_partition l :
  labelled "high" l + labelled "medium" l + labelled "low" l
  ≤ Z.of_nat (length l)
  ∧ (Forall (λ a, level_of (risk_level a) ≠ None) l →
     labelled "high" l + labelled "medium" l + labelled "low" l
     = Z.of_nat (length l)).
Proof.
  unfold labelled. induction l as [|a l [IH1 IH2]]; [done|].
  rewrite !filter_cons.
  split; [|intros Hall; apply Forall_cons in Hall as [Ha Hall];
           specialize (IH2 Hall); unfold level_of in Ha];
    destruct (String.eqb (Py.lower (risk_level a)) "high") eqn:E1;
    destruct (String.eqb (Py.lower (risk_level a)) "medium") eqn:E2;
    destruct (String.eqb (Py.lower (risk_level a)) "low") eqn:E3;
    try done;
    try (apply String.eqb_eq in E1; rewrite E1 in *; done);
    try (apply String.eqb_eq in E2; rewrite E2 in *; done);
    repeat case_decide; try done; simpl length; lia.
Qed.

(** X22. [POST /queue/update-priorities/] on a non-empty store answers
    whenever the Q-table file has no empty row, also when a stored
    assessment has no timestamp: the scoring that comes first stamps it.
    The counts are those of the stored assessments labelled high, medium
    and low (case-insensitive); they add up to at most the number of
    patients in the message, and to exactly that number when every label is
    recognised.  Afterwards every stored assessment is stamped. *)
Theorem update_priorities_counts_by_label w now :
  patient_assessments w ≠ [] →
  rows_nonempty (load_q_table (q_table_file w)) →
  ∃ message high medium low w',
    update_queue_priorities w now = Some (Updated message high medium low, w')
    ∧ message
      = "Updated priorities for "
        +:+ pretty (Z.of_nat (length (patient_assessments w))) +:+ " patients"
    ∧ high = labelled "high" (patient_assessments w)
    ∧ medium = labelled "medium" (patient_assessments w)
    ∧ low = labelled "low" (patient_assessments w)
    ∧ high + medium + low ≤ Z.of_nat (length (patient_assessments w))
    ∧ (Forall (λ a, level_of (risk_level a) ≠ None) (patient_assessments w) →
       high + medium + low = Z.of_nat (length (patient_assessments w)))
    ∧ Forall stamped (patient_assessments w')
    ∧ length (patient_assessments w') = length (patient_assessments w)
    ∧ q_table_file w' = q_table_file w.
Proof.
  destruct w as [l file g]. simpl. intros Hne Hrows.
  assert (Hst : Forall stamped (refresh_assessment now <$> l)).
  { apply Forall_fmap, Forall_forall. intros b _. apply refresh_stamped. }
  destruct (manage_patient_queue_Some file g now _ Hst Hrows)
    as (cq & g1 & Hq).
  pose proof (manage_patient_queue_length _ _ _ _ _ _ Hq) as Hlen.
  rewrite length_fmap in Hlen.
  pose proof (manage_patient_queue_assessments _ _ _ _ _ _ Hq) as Hcq.
  assert (Hcount : ∀ level, count_level level cq = labelled level l).
  { intros level. rewrite count_level_assessments, (labelled_perm _ _ _ Hcq).
    by rewrite !labelled_refresh. }
  unfold update_queue_priorities. simpl.
  destruct l as [|a0 l0] eqn:El; [done|]. rewrite <- El in *.
  change (map (refresh_assessment now) l) with (refresh_assessment now <$> l).
  rewrite Hq. simpl. eexists _, _, _, _, _. split; [done|]. simpl.
  rewrite !Hcount, Hlen.
  destruct (labelled_partition l) as [Hle Heq].
  split_and!; try done.
  - apply Forall_fmap, Forall_forall. intros b _. apply refresh_stamped.
  - by rewrite !length_fmap.
Qed.

Lemma update_priorities_counts_by_label_witness :
  ∃ message high medium low w',
    update_queue_priorities (mkWorld three_patients None quiet_rng) 3000000
    = Some (Updated message high medium low, w')
    ∧ message
      = "Updated priorities for "
        +:+ pretty (Z.of_nat (length three_patients)) +:+ " patients"
    ∧ high = labelled "high" three_patients
    ∧ medium = labelled "medium" three_patients
    ∧ low = labelled "low" three_patients
    ∧ high + medium + low ≤ Z.of_nat (length three_patients)
    ∧ (Forall (λ a, level_of (risk_level a) ≠ None) three_patients →
       high + medium + low = Z.of_nat (length three_patients))
    ∧ Forall stamped (patient_assessments w')
    ∧ length (patient_assessments w') = length three_patients
    ∧ q_table_file w' = None.
Proof.
  apply (update_priorities_counts_by_label
           (mkWorld three_patients None quiet_rng) 3000000).
  - done.
  - apply rows_nonempty_no_file.
Defined.

(* ------------------------------------------------------------------ *)
(** ** rl_scheduler.py: what a scheduling pass leaves on the entries *)

Lemma refresh_confidence now a :
  confidence_score (refresh_assessment now a) = confidence_score a.
Proof.
  unfold refresh_assessment. rewrite calculate_priority_score_snd.
  by destruct (timestamp a).
Qed.

Lemma get_state_inputs now p p' queue_info :
  risk_level (risk_assessment p) = risk_level (risk_assessment p') →
  confidence_score (risk_assessment p) = confidence_score (risk_assessment p') →
  get_state now p queue_info = get_state now p' queue_info.
Proof. unfold get_state. by intros -> ->. Qed.

(** The binding is read off the label, the confidence and the three RL
    fields of an entry. *)
Lemma rl_bound_in_inputs now queue_info p p' :
  risk_level (risk_assessment p) = risk_level (risk_assessment p') →
  confidence_score (risk_assessment p) = confidence_score (risk_assessment p') →
  rl_adjustment p = rl_adjustment p' →
  rl_state p = rl_state p' →
  rl_action p = rl_action p' →
  rl_bound_in now queue_info p → rl_bound_in now queue_info p'.
Proof.
  intros H1 H2 H3 H4 H5. unfold rl_bound_in.
  rewrite (get_state_inputs now p p' queue_info H1 H2), H1, H3, H4, H5. done.
Qed.

Lemma make_queue_items_unbound i l ps :
  make_queue_items i l = Some ps →
  Forall (λ p, rl_adjustment p = 0%Q ∧ rl_state p = None ∧ rl_action p = None)
         ps.
Proof.
  revert i ps. induction l as [|a l IH]; intros i ps; simpl.
  { intros [= <-]. constructor. }
  destruct (timestamp a) as [t|]; [|done]. simpl.
  destruct (make_queue_items (i + 1) l) as [items|] eqn:E; [|done].
  simpl. intros [= <-]. constructor; [done|]. by eapply IH.
Qed.

Lemma rl_step_bound now queue_info p p' :
  rl_adjustment p = 0%Q → rl_state p = None → rl_action p = None →
  rl_step now queue_info p p' → rl_bound_in now queue_info p'.
Proof.
  intros H1 H2 H3. unfold rl_step, rl_bound_in.
  destruct (String.eqb (Py.lower (risk_level (risk_assessment p))) "low")
    eqn:El.
  - intros [action ->]. simpl. rewrite El. by exists action.
  - intros ->. by rewrite El.
Qed.

Lemma assign_positions_bound now queue_info i l :
  Forall (rl_bound_in now queue_info) l →
  Forall (rl_bound_in now queue_info) (assign_positions i l).
Proof.
  intros H. revert i. induction H as [|p l Hp _ IH]; intros i; simpl;
    constructor; [|apply IH].
  by apply (rl_bound_in_inputs now queue_info p).
Qed.

Lemma finalize_queue_bound now queue_info i l :
  Forall (rl_bound_in now queue_info) l →
  Forall (rl_bound_in now queue_info) (finalize_queue i l).
Proof.
  intros H. revert i. induction H as [|p l Hp _ IH]; intros i; simpl;
    constructor; [|apply IH].
  by apply (rl_bound_in_inputs now queue_info p).
Qed.

(** X23. In every snapshot the scheduler has touched the Low entries and
    no other: a Low entry carries the action chosen for it, the boost of
    that action as its adjustment, and the state built from its label, its
    confidence, the queue length and the number of High entries; every
    other entry has adjustment 0 and neither state nor action. *)
Theorem snapshot_binds_low_entries_only file g now assessments q g' :
  manage_patient_queue file g now assessments = Some (q, g') →
  Forall (rl_bound now q) q.
Proof.
  intros Hq.
  pose proof (manage_patient_queue_length _ _ _ _ _ _ Hq) as Hlen.
  pose proof (manage_patient_queue_assessments _ _ _ _ _ _ Hq) as Hperm.
  revert Hq.
  unfold manage_patient_queue, calculate_dynamic_priority,
    schedule_patients_with_rl, sort_by_final_priority.
  destruct (make_queue_items 0 assessments) as [ps0|] eqn:Hmake; [|done].
  simpl. set (queue_info := mkQueueInfo _ _ _ _ _).
  destruct (rl_pass _ g now queue_info _) as [[[ps2 s1] g1]|] eqn:Hrl; [|done].
  simpl. intros [= Hq _].
  pose proof (make_queue_items_unbound _ _ _ Hmake) as Hun.
  apply make_queue_items_spec in Hmake as [_ Hmake].
  (* after the pass *)
  assert (H2 : Forall (rl_bound_in now queue_info) ps2).
  { apply rl_pass_spec in Hrl. rewrite Forall2_fmap_l in Hrl.
    eapply Forall2_Forall_right; [|exact (Forall2_Forall_conj _ _ _ _ Hun Hrl)].
    intros p p2 [(? & ? & ?) Hstep]. simpl in Hstep.
    by eapply rl_step_bound; [| | |exact Hstep]. }
  (* after the sort *)
  assert (H3 : Forall (rl_bound_in now queue_info)
                 (snd <$> sort_desc (get_final_priority now <$> ps2))).
  { rewrite sort_desc_perm, <- list_fmap_compose. apply Forall_fmap.
    eapply Forall_impl; [exact H2|]. intros p Hp. simpl.
    rewrite get_final_priority_snd.
    apply (rl_bound_in_inputs now queue_info p); try done; simpl.
    - by rewrite refresh_risk_level.
    - by rewrite refresh_confidence. }
  apply (assign_positions_bound now queue_info 0) in H3.
  apply (finalize_queue_bound now queue_info 0) in H3.
  change (map snd ?l) with (snd <$> l) in Hq.
  change (map (get_final_priority now) ps2)
    with (get_final_priority now <$> ps2) in Hq.
  rewrite Hq in H3.
  eapply Forall_impl; [exact H3|]. intros e He.
  exists queue_info. split; [|split; [|done]].
  - simpl. f_equal. rewrite Hlen. symmetry. by eapply Forall2_length.
  - simpl. rewrite !count_level_assessments.
    rewrite (labelled_perm _ _ _ Hperm), labelled_refresh. f_equal.
    assert (E : id <$> assessments = risk_assessment <$> ps0).
    { apply Forall2_fmap_eq. eapply Forall2_impl; [exact Hmake|].
      by intros a p [-> _]. }
    rewrite list_fmap_id in E. by rewrite <- E.
Qed.

Lemma snapshot_binds_low_entries_only_witness :
  ∃ q g',
    manage_patient_queue None quiet_rng 3000000 three_patients = Some (q, g')
    ∧ Forall (rl_bound 3000000 q) q.
Proof.
  eexists _, _.
  assert (Hq : manage_patient_queue None quiet_rng 3000000 three_patients
               = Some (_, _)) by (vm_compute; reflexivity).
  split; [exact Hq|].
  exact (snapshot_binds_low_entries_only _ _ _ _ _ _ Hq).
Defined.

(* ------------------------------------------------------------------ *)
(** ** utils.py: the patient ids of a snapshot *)

Lemma pretty_N_go_no_underscore (x : N) s :
  no_underscore s → no_underscore (pretty_N_go x s).
Proof.
  revert s. induction (N.lt_wf_0 x) as [x _ IH]; intros s Hs.
  destruct (decide (x = 0)%N) as [->|Hx]; [by rewrite pretty_N_go_0|].
  rewrite pretty_N_go_step by lia.
  apply IH; [apply N.div_lt; lia|]. split; [|done].
  unfold pretty_N_char. by repeat case_match.
Qed.

Lemma pretty_Z_no_underscore (z : Z) : no_underscore (pretty z).
Proof.
  assert (HN : ∀ p : positive, no_underscore (pretty p)).
  { intros p. unfold pretty, pretty_positive, pretty, pretty_N.
    case_decide; [done|]. by apply pretty_N_go_no_underscore. }
  unfold pretty, pretty_Z. destruct z as [|p|p]; [done|apply HN|].
  split; [done|apply HN].
Qed.

Lemma separator_inj u u' v v' :
  no_underscore u → no_underscore u' →
  u +:+ String "_" v = u' +:+ String "_" v' → u = u'.
Proof.
  revert u'. induction u as [|c u IH]; intros [|c' u']; simpl.
  - done.
  - intros _ [Hc _] [= <- _]. done.
  - intros [Hc _] _ [= -> _]. done.
  - intros [_ Hu] [_ Hu'] [= -> E]. f_equal. by apply IH.
Qed.

Lemma make_patient_id_inj i j t t' :
  make_patient_id i t = make_patient_id j t' → i = j.
Proof.
  unfold make_patient_id. intros E. simpl in E. simplify_eq.
  apply separator_inj in E; [|apply pretty_Z_no_underscore..].
  apply (inj pretty) in E. lia.
Qed.

Lemma make_queue_items_ids i l ps k p :
  make_queue_items i l = Some ps →
  ps !! k = Some p →
  ∃ t, patient_id p = make_patient_id (i + Z.of_nat k) t.
Proof.
  revert i ps k. induction l as [|a l IH]; intros i ps k; simpl.
  { by intros [= <-]. }
  destruct (timestamp a) as [t|]; [|done]. simpl.
  destruct (make_queue_items (i + 1) l) as [items|] eqn:E; [|done].
  simpl. intros [= <-]. destruct k as [|k]; simpl.
  - intros [= <-]. exists t. simpl. f_equal. lia.
  - intros Hk. destruct (IH _ _ _ E Hk) as [t' ->]. exists t'. f_equal. lia.
Qed.

(** X24. The patient ids of a snapshot are pairwise distinct: each is
    built from the index of its assessment in the stored list, and the
    scheduler, the sort and the renumbering carry it along unchanged. *)
Theorem snapshot_patient_ids_distinct file g now assessments q g' :
  manage_patient_queue file g now assessments = Some (q, g') →
  NoDup (patient_id <$> q).
Proof.
  unfold manage_patient_queue, calculate_dynamic_priority,
    schedule_patients_with_rl, sort_by_final_priority.
  destruct (make_queue_items 0 assessments) as [ps0|] eqn:Hmake; [|done].
  simpl. set (queue_info := mkQueueInfo _ _ _ _ _).
  destruct (rl_pass _ g now queue_info _) as [[[ps2 s1] g1]|] eqn:Hrl; [|done].
  simpl. intros [= <- _].
  change (map snd ?l) with (snd <$> l).
  change (map (get_final_priority now) ps2)
    with (get_final_priority now <$> ps2).
  set (sorted := snd <$> sort_desc (get_final_priority now <$> ps2)).
  assert (E1 : patient_id <$> finalize_queue 0 (assign_positions 0 sorted)
               = patient_id <$> sorted).
  { symmetry. apply Forall2_fmap_eq.
    eapply Forall2_trans;
      [|apply (assign_positions_spec 0)|apply (finalize_queue_spec 0)].
    intros p e1 e2 (_ & _ & ?) (_ & _ & ?). simpl. congruence. }
  assert (E2 : patient_id <$> sorted ≡ₚ patient_id <$> ps2).
  { unfold sorted. rewrite sort_desc_perm, <- !list_fmap_compose.
    assert (E : (patient_id ∘ snd ∘ get_final_priority now) <$> ps2
                = patient_id <$> ps2); [|by rewrite E].
    apply list_fmap_ext. intros i p _. simpl.
    by rewrite get_final_priority_snd. }
  assert (E3 : patient_id <$> ps2 = patient_id <$> ps0).
  { symmetry. apply Forall2_fmap_eq. apply rl_pass_spec in Hrl.
    rewrite Forall2_fmap_l in Hrl. eapply Forall2_impl; [exact Hrl|].
    intros p p2 Hstep. simpl in Hstep.
    by destruct (rl_step_assessment _ _ _ _ Hstep) as [_ ->]. }
  rewrite E1, E2, E3.
  apply NoDup_alt. intros i j x Hi Hj.
  apply list_lookup_fmap_Some in Hi as (p & -> & Hi).
  apply list_lookup_fmap_Some in Hj as (p' & Hpp & Hj).
  destruct (make_queue_items_ids _ _ _ _ _ Hmake Hi) as [t Ht].
  destruct (make_queue_items_ids _ _ _ _ _ Hmake Hj) as [t' Ht'].
  rewrite Ht, Ht' in Hpp. apply make_patient_id_inj in Hpp. lia.
Qed.

Lemma snapshot_patient_ids_distinct_witness :
  ∃ q g',
    manage_patient_queue None quiet_rng 3000000 three_patients = Some (q, g')
    ∧ NoDup (patient_id <$> q).
Proof.
  eexists _, _.
  assert (Hq : manage_patient_queue None quiet_rng 3000000 three_patients
               = Some (_, _)) by (vm_compute; reflexivity).
  split; [exact Hq|].
  exact (snapshot_patient_ids_distinct _ _ _ _ _ _ Hq).
Defined.

(* ------------------------------------------------------------------ *)
(** ** main.py: the application as a sequence of requests *)

Lemma created_by_mono t t' l : t ≤ t' → created_by t l → created_by t' l.
Proof.
  intros Hle H. eapply Forall_impl; [exact H|]. intros a (ta & E & Hta).
  exists ta. split; [done|lia].
Qed.

Lemma created_by_stamped t l : created_by t l → Forall stamped l.
Proof.
  intros H. eapply Forall_impl; [exact H|]. intros a (ta & E & _).
  unfold stamped. by rewrite E.
Qed.

Lemma created_by_refresh now t l :
  created_by t l → created_by t (refresh_assessment now <$> l).
Proof.
  intros H. apply Forall_fmap. eapply Forall_impl; [exact H|].
  intros a (ta & E & Hta). exists ta. split; [|done]. simpl.
  rewrite refresh_timestamp; [done|]. unfold stamped. by rewrite E.
Qed.

Lemma created_by_filter (P : RiskAssessment → Prop)
    `{∀ a, Decision (P a)} t l :
  created_by t l → created_by t (filter P l).
Proof.
  unfold created_by. rewrite !Forall_forall. intros H' a Ha.
  apply list_elem_of_filter in Ha as [_ Ha]. auto.
Qed.

Lemma get_patient_queue_Some w now :
  Forall stamped (patient_assessments w) →
  rows_nonempty (load_q_table (q_table_file w)) →
  ∃ rs w',
    get_patient_queue w now = Some (rs, w')
    ∧ patient_assessments w' = refresh_assessment now <$> patient_assessments w
    ∧ q_table_file w' = q_table_file w.
Proof.
  intros Hst Hrows.
  destruct (manage_patient_queue_Some (q_table_file w) (np_random w) now _
              Hst Hrows) as (cq & g1 & Hq).
  unfold get_patient_queue.
  destruct (patient_assessments w) as [|a0 l0] eqn:Ew.
  { eexists _, _. split; [done|]. by rewrite Ew. }
  rewrite Hq. simpl. by eexists _, _.
Qed.

Lemma update_queue_priorities_Some w now :
  rows_nonempty (load_q_table (q_table_file w)) →
  ∃ r w',
    update_queue_priorities w now = Some (r, w')
    ∧ patient_assessments w'
      = refresh_assessment now
          <$> (refresh_assessment now <$> patient_assessments w)
    ∧ q_table_file w' = q_table_file w.
Proof.
  intros Hrows.
  assert (Hst : Forall stamped (refresh_assessment now <$> patient_assessments w)).
  { apply Forall_fmap, Forall_forall. intros b _. apply refresh_stamped. }
  destruct (manage_patient_queue_Some (q_table_file w) (np_random w) now _
              Hst Hrows) as (cq & g1 & Hq).
  unfold update_queue_priorities.
  destruct (patient_assessments w) as [|a0 l0] eqn:Ew.
  { eexists _, _. split; [done|]. by rewrite Ew. }
  change (map (refresh_assessment now) ?l) with (refresh_assessment now <$> l).
  rewrite Hq. simpl. by eexists _, _.
Qed.

(** One request on a store in admission order, served no earlier than the
    creation of any stored assessment, is answered and keeps the store in
    admission order. *)
Lemma handle_invariant w t now request :
  admission_ordered (patient_assessments w) →
  created_by t (patient_assessments w) →
  rows_nonempty (load_q_table (q_table_file w)) →
  t ≤ now →
  ∃ w',
    handle w now request = Some w'
    ∧ admission_ordered (patient_assessments w')
    ∧ created_by now (patient_assessments w')
    ∧ q_table_file w' = q_table_file w.
Proof.
  intros Hord Hby Hrows Hle.
  pose proof (created_by_mono t now _ Hle Hby) as Hnow.
  pose proof (created_by_stamped _ _ Hby) as Hst.
  destruct request as [|vitals label confidence| | | |id wait sat util|]; simpl.
  - by exists w.
  - destruct (predict_Some w now vitals label confidence Hst Hrows)
      as (cq & g1 & Hq & Hp).
    pose proof (predict_keeps_admission_order _ _ _ _ _ _ _ Hord Hnow Hp) as H'.
    rewrite Hp. simpl. eexists. split; [done|]. simpl in *.
    split; [done|]. split; [|done].
    apply Forall_app. split; [by apply created_by_refresh|].
    constructor; [|constructor]. exists now. split; [|lia].
    unfold create_risk_assessment_with_priority. by rewrite refresh_timestamp.
  - destruct (get_patient_queue_Some w now Hst Hrows)
      as (rs & w' & Hq & Hw' & Hfile).
    pose proof (get_patient_queue_keeps_admission_order _ _ _ _ Hord Hq) as H'.
    rewrite Hq. simpl. exists w'. split; [done|]. split; [done|].
    split; [|done]. rewrite Hw'. by apply created_by_refresh.
  - destruct (update_queue_priorities_Some w now Hrows)
      as (r & w' & Hq & Hw' & Hfile).
    rewrite Hq. simpl. exists w'. split; [done|]. rewrite Hw'.
    split; [by do 2 apply admission_ordered_refresh|].
    split; [|done]. by do 2 apply created_by_refresh.
  - eexists. split; [done|]. simpl. split; [|split; [constructor|done]].
    apply (clear_queue_keeps_admission_order w).
  - eexists. split; [done|]. by split; [|split].
  - destruct (get_next_patient_Some w now Hst Hrows)
      as (res & w' & Hpop & Hfile).
    pose proof (get_next_patient_keeps_admission_order _ _ _ _ Hord Hpop) as H'.
    rewrite Hpop. simpl. exists w'. split; [done|]. split; [done|].
    split; [|done].
    destruct (decide (patient_assessments w = [])) as [E|Hne].
    + unfold get_next_patient in Hpop. rewrite E in Hpop.
      injection Hpop as _ Hw. by rewrite <- Hw.
    + destruct (get_next_patient_spec _ _ _ _ Hne Hpop)
        as (a & r & _ & _ & _ & _ & _ & ->).
      by apply created_by_filter, created_by_refresh.
Qed.

Lemma serve_invariant requests : ∀ w t,
  admission_ordered (patient_assessments w) →
  created_by t (patient_assessments w) →
  rows_nonempty (load_q_table (q_table_file w)) →
  clock_from t requests →
  ∃ w',
    serve w requests = Some w'
    ∧ admission_ordered (patient_assessments w')
    ∧ q_table_file w' = q_table_file w.
Proof.
  induction requests as [|[now request] rest IH]; intros w t Hord Hby Hrows Hclock.
  { by exists w. }
  destruct Hclock as [Hle Hclock]. simpl.
  destruct (handle_invariant w t now request Hord Hby Hrows Hle)
    as (w1 & -> & Hord1 & Hby1 & Hfile1).
  simpl. rewrite <- Hfile1 in Hrows.
  destruct (IH w1 now Hord1 Hby1 Hrows Hclock) as (w' & Hs & Hord' & Hfile').
  exists w'. split; [done|]. split; [done|]. by rewrite Hfile'.
Qed.

(** X25. Starting from an empty store, with a Q-table file without empty
    row, any sequence of requests served one after the other by a clock
    that never goes back is answered without an uncaught exception; the
    store stays stamped and in admission order, and the Q-table file is
    never written. *)
Theorem no_request_fails_from_the_empty_store file g t requests :
  rows_nonempty (load_q_table file) →
  clock_from t requests →
  ∃ w',
    serve (mkWorld [] file g) requests = Some w'
    ∧ admission_ordered (patient_assessments w')
    ∧ q_table_file w' = file.
Proof.
  intros Hrows Hclock.
  apply (serve_invariant requests (mkWorld [] file g) t); try done.
  - split; constructor.
  - constructor.
Qed.

Lemma no_request_fails_from_the_empty_store_witness :
  ∃ w',
    serve (mkWorld [] None quiet_rng)
      [(0, Predict (calm_vitals 25) "Low" (7 # 10));
       (1000000, Predict alarming_vitals "High" (9 # 10));
       (1000000, GetQueue);
       (2000000, Feedback "patient_1_0" 10 1 1);
       (3000000, NextPatient);
       (3000000, UpdatePriorities);
       (4000000, ClearQueue);
       (4000000, NextPatient)] = Some w'
    ∧ admission_ordered (patient_assessments w')
    ∧ q_table_file w' = None.
Proof.
  apply (no_request_fails_from_the_empty_store None quiet_rng 0).
  - apply rows_nonempty_no_file.
  - simpl. lia.
Defined.
